(** * create_issues_from_csv: CSV rows to Jira issues

    A shallow embedding of [create_issues_from_csv.py] and the proofs of
    its field-mapping, document-conversion, request and batch-loop
    properties.

    Python values are modelled as follows.
    - [str] is a sequence of Unicode code points ([list N]); the built-in
      methods the script calls ([str.splitlines], [str.strip],
      [str.rstrip], [str.split], [str.startswith]) follow CPython's
      definition, including the Unicode line boundaries and white space.
    - [dict] is an association list in insertion order with unique keys:
      assignment replaces the value in place or appends a new entry.
    - the JSON-like values put in a payload or parsed from a response are
      the inductive type [pyobj] (numbers are integers).
    - exceptions are the inductive type [exn]; code that can raise returns
      a [result].
    - the environment, the file system and the HTTP server are explicit:
      a record [os_env] that is only read, and a world state [W] that
      [requests.post] threads. *)

From Stdlib Require Import String Ascii DecimalString.
From Stdlib Require Import List NArith ZArith Bool Lia.
Import ListNotations.

Set Warnings "-register-all".

(** ** Strings *)

Definition char := N.
Definition str := list char.

(** A literal of the source; every literal of the script is ASCII. *)
Definition lit (s : string) : str :=
  List.map N_of_ascii (list_ascii_of_string s).

Fixpoint str_eqb (a b : str) : bool :=
  match a, b with
  | [], [] => true
  | x :: a', y :: b' => N.eqb x y && str_eqb a' b'
  | _, _ => false
  end.

(** Truth value of a string: [bool(s)], false exactly on the empty one. *)
Definition truthy (s : str) : bool :=
  match s with [] => false | _ :: _ => true end.

(** Truth value of an optional string: [None] and the empty string are
    false. *)
Definition truthy_opt (o : option str) : bool :=
  match o with Some s => truthy s | None => false end.

(** [x or ''] for an optional string [x]. *)
Definition or_empty (o : option str) : str :=
  match o with
  | Some s => if truthy s then s else []
  | None => []
  end.

Definition LF : char := 10%N.
Definition CR : char := 13%N.
Definition COMMA : char := 44%N.
Definition SLASH : char := 47%N.

(** Line boundaries of [str.splitlines]: \n \v \f \r, the separators
    U+001C..U+001E, NEL U+0085, LS U+2028 and PS U+2029. *)
Definition is_linebreak (c : char) : bool :=
  ((10 <=? c) && (c <=? 13) || (28 <=? c) && (c <=? 30)
   || (c =? 133) || (c =? 8232) || (c =? 8233))%N.

(** White space of [str.strip] with no argument ([str.isspace] per code
    point). *)
Definition is_space (c : char) : bool :=
  ((9 <=? c) && (c <=? 13) || (28 <=? c) && (c <=? 32)
   || (c =? 133) || (c =? 160) || (c =? 5760)
   || (8192 <=? c) && (c <=? 8202)
   || (c =? 8232) || (c =? 8233) || (c =? 8239) || (c =? 8287)
   || (c =? 12288))%N.

(** [str.splitlines()]: [cur] holds, reversed, the characters of the line
    being read.  A line ends at a line boundary, "\r\n" counting as one;
    the text after the last boundary is a line only when it is not
    empty. *)
Fixpoint splitlines_from (cur : str) (s : str) : list str :=
  match s with
  | [] => match cur with [] => [] | _ :: _ => [rev cur] end
  | c :: rest =>
      if is_linebreak c then
        rev cur ::
        match rest with
        | c' :: rest' =>
            if (c =? CR)%N && (c' =? LF)%N
            then splitlines_from [] rest'
            else splitlines_from [] rest
        | [] => []
        end
      else splitlines_from (c :: cur) rest
  end.

Definition splitlines (s : str) : list str := splitlines_from [] s.

Fixpoint dropwhile (p : char -> bool) (s : str) : str :=
  match s with
  | [] => []
  | c :: rest => if p c then dropwhile p rest else s
  end.

Definition lstrip_by (p : char -> bool) (s : str) : str := dropwhile p s.
Definition rstrip_by (p : char -> bool) (s : str) : str :=
  rev (dropwhile p (rev s)).

(** [s.strip()] *)
Definition strip (s : str) : str := rstrip_by is_space (lstrip_by is_space s).

(** [s.rstrip(chars)] *)
Definition rstrip (chars : str) (s : str) : str :=
  rstrip_by (fun c => existsb (N.eqb c) chars) s.

(** [s.split(sep)] for a one-character separator: every occurrence
    separates, so the empty string gives one empty piece. *)
Fixpoint split_from (sep : char) (cur : str) (s : str) : list str :=
  match s with
  | [] => [rev cur]
  | c :: rest =>
      if (c =? sep)%N then rev cur :: split_from sep [] rest
      else split_from sep (c :: cur) rest
  end.

Definition split (sep : char) (s : str) : list str := split_from sep [] s.

Fixpoint startswith (prefix s : str) : bool :=
  match prefix, s with
  | [], _ => true
  | p :: prefix', c :: s' => N.eqb p c && startswith prefix' s'
  | _ :: _, [] => false
  end.

(** [str(n)] for an integer. *)
Definition str_of_int (z : Z) : str :=
  lit (NilZero.string_of_int (Z.to_int z)).

(** ** Dictionaries *)

Definition dict (V : Type) := list (str * V).

Fixpoint dict_get {V} (k : str) (d : dict V) : option V :=
  match d with
  | [] => None
  | (k', v) :: d' => if str_eqb k k' then Some v else dict_get k d'
  end.

(** [d[k] = v] *)
Fixpoint dict_set {V} (k : str) (v : V) (d : dict V) : dict V :=
  match d with
  | [] => [(k, v)]
  | (k', v') :: d' =>
      if str_eqb k k' then (k', v) :: d' else (k', v') :: dict_set k v d'
  end.

(** ** Values and exceptions *)

Inductive pyobj :=
| VNone
| VBool (b : bool)
| VInt (z : Z)
| VStr (s : str)
| VList (l : list pyobj)
| VDict (d : list (str * pyobj)).

Inductive exn :=
| RuntimeError (msg : str)
| FileNotFoundError (msg : str)
| OSError (msg : str)
| UnicodeDecodeError (msg : str)
| CsvError (msg : str)
| RequestException (msg : str)
| JSONDecodeError (doc : str)
| KeyError (key : str)
| TypeError (subscripted : pyobj).

Inductive result (A : Type) :=
| Ok (a : A)
| Err (e : exn).
Arguments Ok {A} a.
Arguments Err {A} e.

(** ** Configuration (lines 23-35) *)

Definition FIELD_MAP : dict str :=
  [ (lit "Summary", lit "summary");
    (lit "Labels", lit "labels");
    (lit "Description", lit "description") ].

Definition CUSTOM_FIELD_AS_LIST : list str := [].

(** ** Document Converter (lines 45-59) *)

Definition to_adf_doc (text : option str) : pyobj :=
  let lines :=
    match splitlines (or_empty text) with
    | [] => [[]]
    | l :: ls => l :: ls
    end in
  let content :=
    List.map (fun line =>
      VDict [ (lit "type", VStr (lit "paragraph"));
              (lit "content",
               VList [ VDict [ (lit "type", VStr (lit "text"));
                               (lit "text", VStr line) ] ]) ]) lines in
  VDict [ (lit "type", VStr (lit "doc"));
          (lit "version", VInt 1);
          (lit "content", VList content) ].

(** ** Labels (lines 62-69) *)

Definition parse_labels (value : option str) : list str :=
  match value with
  | None => []
  | Some v =>
      if negb (truthy v) then []
      else List.map strip
             (List.filter (fun p => truthy (strip p)) (split COMMA v))
  end.

(** ** Field Mapper (lines 80-129) *)

(** A row of [csv.DictReader]: a cell is [None] when the line is shorter
    than the header. *)
Definition row := dict (option str).

(** [row.get(csv_col) or ''] *)
Definition cell (r : row) (csv_col : str) : str :=
  match dict_get csv_col r with
  | Some o => or_empty o
  | None => []
  end.

Definition mem_str (s : str) (l : list str) : bool := existsb (str_eqb s) l.

(** The body of the loop over [FIELD_MAP.items()] (lines 94-116), with the
    two configuration globals as arguments. *)
Definition map_field (as_list : list str) (r : row)
    (fields : dict pyobj) (item : str * str) : dict pyobj :=
  let '(csv_col, jira_field) := item in
  let val := strip (cell r csv_col) in
  if negb (truthy val) && mem_str jira_field [lit "summary"] then fields
  else if str_eqb jira_field (lit "labels") then
    dict_set (lit "labels") (VList (List.map VStr (parse_labels (Some val)))) fields
  else if str_eqb jira_field (lit "description") then
    dict_set (lit "description") (to_adf_doc (Some val)) fields
  else if startswith (lit "customfield_") jira_field then
    if mem_str jira_field as_list
    then dict_set jira_field (VList (if truthy val then [VStr val] else [])) fields
    else dict_set jira_field (VStr val) fields
  else dict_set jira_field (VStr val) fields.

(** Lines 80-129, with [FIELD_MAP] and [CUSTOM_FIELD_AS_LIST] as
    arguments. *)
Definition create_issue_payload_with (field_map : dict str) (as_list : list str)
    (r : row) (project_key issue_type : str)
    (epic_key assignee_account_id : option str) : pyobj :=
  let fields : dict pyobj :=
    [ (lit "project", VDict [(lit "key", VStr project_key)]);
      (lit "issuetype", VDict [(lit "name", VStr issue_type)]) ] in
  let fields := fold_left (map_field as_list r) field_map fields in
  let fields :=
    match assignee_account_id with
    | Some a =>
        if truthy a
        then dict_set (lit "assignee") (VDict [(lit "accountId", VStr a)]) fields
        else fields
    | None => fields
    end in
  let fields :=
    match epic_key with
    | Some k =>
        if truthy k
        then dict_set (lit "parent") (VDict [(lit "key", VStr k)]) fields
        else fields
    | None => fields
    end in
  VDict [(lit "fields", VDict fields)].

(** [create_issue_payload] as the script has it, on its two globals. *)
Definition create_issue_payload :=
  create_issue_payload_with FIELD_MAP CUSTOM_FIELD_AS_LIST.

(** ** The outside world *)

(** What [csv.DictReader] makes of a file: the header ([[]] when there is
    none) and the rows it yields. *)
Record csv_table := { fieldnames : list str; csv_rows : list row }.

(** What a path holds.  [NoFile]: [os.path.exists] is false.
    [OpenFails e]: the path exists and [open] raises [e] (a directory, no
    permission).  [HeaderFails e]: the file opens and reading its first
    line for [reader.fieldnames] raises [e] (bytes that are not UTF-8, a
    malformed line).  [Reads table stop]: the header is read, the reader
    yields the rows of [table], and then it is exhausted ([stop] is
    [None]) or reading the next row raises [stop]. *)
Inductive file_state :=
| NoFile
| OpenFails (e : exn)
| HeaderFails (e : exn)
| Reads (table : csv_table) (stop : option exn).

(** The process environment after [load_dotenv()], and the file
    system. *)
Record os_env := { environ : dict str; disk : str -> file_state }.

(** The table a path reads as, when it is read to its end without an
    error. *)
Definition files (os : os_env) (path : str) : option csv_table :=
  match disk os path with
  | Reads table None => Some table
  | _ => None
  end.

(** An open [csv.DictReader]: what reading its header gives, the rows it
    yields, and how the iteration ends. *)
Record csv_reader := {
  reader_fieldnames : result (list str);
  reader_rows : list row;
  reader_stop : option exn
}.

Record request := {
  url : str;
  headers : dict str;
  auth : str * str;
  json : pyobj;
  timeout : Z
}.

(** A response: [resp_json] is what [resp.json()] returns, [None] when the
    body is not JSON. *)
Record response := {
  status_code : Z;
  text : str;
  resp_json : option pyobj
}.

(** A line of standard output. *)
Inductive line :=
| LHeadersBanner
| LHeader (h : str)
| LCreated (i : nat) (key : pyobj)
| LError (i : nat) (e : exn)
| LDone (created : nat).

(** ** The program *)

Section Program.

(** The HTTP server behind [requests.post]: it answers with a response or
    the call raises, and the server's state moves on. *)
Variable W : Type.
Variable http_post : request -> W -> result response * W.

Record state := { world : W; stdout : list line }.

(** Computations read the environment, may raise, and change the state. *)
Definition M (A : Type) := os_env -> state -> result A * state.

Definition ret {A} (a : A) : M A := fun _ st => (Ok a, st).
Definition raise {A} (e : exn) : M A := fun _ st => (Err e, st).
Definition bind {A B} (m : M A) (k : A -> M B) : M B :=
  fun os st =>
    match m os st with
    | (Ok a, st') => k a os st'
    | (Err e, st') => (Err e, st')
    end.
(** [try: body except Exception as e: handler(e)] *)
Definition try_except {A} (body : M A) (handler : exn -> M A) : M A :=
  fun os st =>
    match body os st with
    | (Ok a, st') => (Ok a, st')
    | (Err e, st') => handler e os st'
    end.

Notation "x <- m ;; k" := (bind m (fun x => k))
  (at level 61, m at next level, right associativity).
Notation "m ;;; k" := (bind m (fun _ => k))
  (at level 61, right associativity).

(** [os.getenv(key)] *)
Definition getenv (key : str) : M (option str) :=
  fun os st => (Ok (dict_get key (environ os)), st).

(** [os.path.exists(path)] *)
Definition path_exists (path : str) : M bool :=
  fun os st =>
    (Ok (match disk os path with NoFile => false | _ => true end), st).

(** [csv.DictReader(open(path, newline='', encoding='utf-8-sig'))]; [main]
    opens a path only after [os.path.exists] said it is there. *)
Definition open_csv (path : str) : M csv_reader :=
  fun os st =>
    match disk os path with
    | NoFile => (Err (FileNotFoundError path), st)
    | OpenFails e => (Err e, st)
    | HeaderFails e =>
        (Ok {| reader_fieldnames := Err e; reader_rows := [];
               reader_stop := None |}, st)
    | Reads table stop =>
        (Ok {| reader_fieldnames := Ok (fieldnames table);
               reader_rows := csv_rows table;
               reader_stop := stop |}, st)
    end.

(** [reader.fieldnames] *)
Definition get_fieldnames (reader : csv_reader) : M (list str) :=
  fun _ st => (reader_fieldnames reader, st).

Definition print (l : line) : M unit :=
  fun _ st => (Ok tt, {| world := world st; stdout := stdout st ++ [l] |}).

Definition requests_post (req : request) : M response :=
  fun _ st =>
    let '(r, w) := http_post req (world st) in
    (r, {| world := w; stdout := stdout st |}).

(** Lines 38-42. *)
Definition env_required (key : str) : M str :=
  val <- getenv key ;;
  match val with
  | Some v =>
      if negb (truthy v)
      then raise (RuntimeError (lit "Missing required environment variable: " ++ key))
      else ret v
  | None =>
      raise (RuntimeError (lit "Missing required environment variable: " ++ key))
  end.

(** Lines 72-73. *)
Definition jira_auth : M (str * str) :=
  email <- env_required (lit "JIRA_EMAIL") ;;
  token <- env_required (lit "JIRA_API_TOKEN") ;;
  ret (email, token).

(** Lines 76-77. *)
Definition jira_base_url : M str :=
  v <- env_required (lit "JIRA_BASE_URL") ;;
  ret (rstrip (lit "/") v).

(** [data["key"]] for a parsed JSON value. *)
Definition getitem (data : pyobj) (key : str) : M pyobj :=
  match data with
  | VDict d =>
      match dict_get key d with
      | Some v => ret v
      | None => raise (KeyError key)
      end
  | _ => raise (TypeError data)
  end.

(** Lines 132-151. *)
Definition create_issue (r : row) : M pyobj :=
  base <- jira_base_url ;;
  let url := base ++ lit "/rest/api/3/issue" in
  project_key <- env_required (lit "JIRA_PROJECT_KEY") ;;
  issue_type_opt <- getenv (lit "JIRA_ISSUE_TYPE") ;;
  let issue_type :=
    match issue_type_opt with Some t => t | None => lit "Task" end in
  epic_key <- getenv (lit "EPIC_KEY") ;;
  assignee_account_id <- getenv (lit "ASSIGNEE_ACCOUNT_ID") ;;
  let payload :=
    create_issue_payload r project_key issue_type epic_key assignee_account_id in
  let headers :=
    [ (lit "Accept", lit "application/json");
      (lit "Content-Type", lit "application/json") ] in
  auth <- jira_auth ;;
  resp <- requests_post
            {| url := url; headers := headers; auth := auth;
               json := payload; timeout := 60 |} ;;
  if (status_code resp >=? 300)%Z
  then raise (RuntimeError (str_of_int (status_code resp) ++ lit " " ++ text resp))
  else
    data <- match resp_json resp with
            | Some d => ret d
            | None => raise (JSONDecodeError (text resp))
            end ;;
    getitem data (lit "key").

(** The loop of lines 171-177: [i] is the position of the next row,
    [created] the counter, [rows] the rows the reader has yet to yield and
    [stop] how its iteration ends: asking for a row after the last one
    ends the loop, or raises outside the [try] of the loop body. *)
Fixpoint main_loop (i : nat) (created : nat) (rows : list row)
    (stop : option exn) : M nat :=
  match rows with
  | [] =>
      match stop with
      | None => ret created
      | Some e => raise e
      end
  | r :: rest =>
      created' <-
        try_except
          (key <- create_issue r ;;
           let created := created + 1 in
           print (LCreated i key) ;;;
           ret created)
          (fun e => print (LError i e) ;;; ret created) ;;
      main_loop (i + 1) created' rest stop
  end.

Fixpoint print_all (ls : list line) : M unit :=
  match ls with
  | [] => ret tt
  | l :: rest => print l ;;; print_all rest
  end.

(** Lines 154-179. *)
Definition main : M unit :=
  csv_path <- env_required (lit "CSV_PATH") ;;
  found <- path_exists csv_path ;;
  if negb found
  then raise (FileNotFoundError (lit "CSV not found: " ++ csv_path))
  else
    reader <- open_csv csv_path ;;
    names <- get_fieldnames reader ;;
    match names with
    | [] => raise (RuntimeError (lit "CSV has no headers."))
    | _ :: _ =>
        print LHeadersBanner ;;;
        print_all (List.map LHeader names) ;;;
        created <- main_loop 1 0 (reader_rows reader) (reader_stop reader) ;;
        print (LDone created)
    end.

End Program.

Arguments world {W} s.
Arguments stdout {W} s.
Arguments Build_state {W} world stdout.
Arguments ret {W A} a.
Arguments raise {W A} e.
Arguments bind {W A B} m k.
Arguments try_except {W A} body handler.
Arguments getenv {W} key.
Arguments path_exists {W} path.
Arguments open_csv {W} path.
Arguments get_fieldnames {W} reader.
Arguments print {W} l.
Arguments print_all {W} ls.
Arguments requests_post {W} http_post req.
Arguments env_required {W} key.
Arguments jira_auth {W}.
Arguments jira_base_url {W}.
Arguments getitem {W} data key.
Arguments create_issue {W} http_post r.
Arguments main_loop {W} http_post i created rows stop.
Arguments main {W} http_post.

(** ** Specification-side definitions *)

(** [sep.join(pieces)] *)
Fixpoint join (sep : char) (pieces : list str) : str :=
  match pieces with
  | [] => []
  | p :: rest =>
      p ++ match rest with [] => [] | _ :: _ => sep :: join sep rest end
  end.

Definition blank (s : str) : bool := forallb is_space s.
Definition no_linebreak (s : str) : bool := forallb (fun c => negb (is_linebreak c)) s.
Definition no_char (x : char) (s : str) : bool := forallb (fun c => negb (c =? x)%N) s.

(** The number of line terminators of a text, "\r\n" counting once:
    [after_cr] tells that the previous character was a "\r". *)
Fixpoint count_breaks_from (after_cr : bool) (s : str) : nat :=
  match s with
  | [] => 0
  | c :: rest =>
      if is_linebreak c
      then (if after_cr && (c =? LF)%N then 0 else 1)
           + count_breaks_from (c =? CR)%N rest
      else count_breaks_from false rest
  end.

Definition count_linebreaks (s : str) : nat := count_breaks_from false s.

(** Whether the text ends in the middle of a line: its last character is
    not a line terminator ([open] answers for the empty text). *)
Fixpoint ends_open (open : bool) (s : str) : bool :=
  match s with
  | [] => open
  | c :: rest => ends_open (negb (is_linebreak c)) rest
  end.

Definition ends_with_linebreak (s : str) : bool :=
  negb (ends_open true s).

(** The number of lines of a text: one per terminator, and one more for
    an unterminated last line. *)
Definition number_of_lines (s : str) : nat :=
  count_linebreaks s + (if ends_open false s then 1 else 0).

(** The lines of a text, as a relation: a line has no line boundary in it
    and is closed by "\r\n" or by one boundary character (a "\r" only
    when no "\n" follows); what follows the last terminator is a line
    when it is not empty. *)
Inductive terminator : str -> str -> Prop :=
| term_crlf rest : terminator [CR; LF] rest
| term_one c rest :
    is_linebreak c = true ->
    (c = CR -> forall rest', rest <> LF :: rest') ->
    terminator [c] rest.

Inductive lines_of : str -> list str -> Prop :=
| lines_none : lines_of [] []
| lines_last l : l <> [] -> no_linebreak l = true -> lines_of l [l]
| lines_more l t rest ls :
    no_linebreak l = true -> terminator t rest -> lines_of rest ls ->
    lines_of (l ++ t ++ rest) (l :: ls).

(** The paragraph node of one line, and the paragraphs of a document. *)
Definition paragraph (line : str) : pyobj :=
  VDict [ (lit "type", VStr (lit "paragraph"));
          (lit "content",
           VList [ VDict [ (lit "type", VStr (lit "text"));
                           (lit "text", VStr line) ] ]) ].

Definition paragraphs (doc : pyobj) : list pyobj :=
  match doc with
  | VDict d =>
      match dict_get (lit "content") d with
      | Some (VList ps) => ps
      | _ => []
      end
  | _ => []
  end.

Definition doc_attr (k : string) (doc : pyobj) : option pyobj :=
  match doc with
  | VDict d => dict_get (lit k) d
  | _ => None
  end.

(** The words of the specification for labels: split on commas, trim each
    piece, drop the empty pieces. *)
Definition parse_labels_spec (s : str) : list str :=
  List.filter truthy (List.map strip (split COMMA s)).

(** The ["fields"] dictionary of a payload. *)
Definition fields_of (payload : pyobj) : dict pyobj :=
  match payload with
  | VDict d =>
      match dict_get (lit "fields") d with
      | Some (VDict f) => f
      | _ => []
      end
  | _ => []
  end.

(** The request of one row, for the settings read from the environment. *)
Definition issue_url (base_url : str) : str :=
  rstrip (lit "/") base_url ++ lit "/rest/api/3/issue".

Definition issue_request (os : os_env) (r : row)
    (base_url project_key email token : str) : request :=
  {| url := issue_url base_url;
     headers := [ (lit "Accept", lit "application/json");
                  (lit "Content-Type", lit "application/json") ];
     auth := (email, token);
     json := create_issue_payload r project_key
               (match dict_get (lit "JIRA_ISSUE_TYPE") (environ os) with
                | Some t => t
                | None => lit "Task"
                end)
               (dict_get (lit "EPIC_KEY") (environ os))
               (dict_get (lit "ASSIGNEE_ACCOUNT_ID") (environ os));
     timeout := 60 |}.

(** A setting is present when the variable is set to a non-empty string. *)
Definition setting (os : os_env) (key : string) (v : str) : Prop :=
  dict_get (lit key) (environ os) = Some v /\ truthy v = true.

Definition absent (os : os_env) (key : string) : Prop :=
  truthy_opt (dict_get (lit key) (environ os)) = false.

Definition missing (key : string) : exn :=
  RuntimeError (lit "Missing required environment variable: " ++ lit key).

(** A required setting, and the request [create_issue] gets ready: the
    settings are read in the order base URL, project key, e-mail, token,
    and the first one missing is the error. *)
Definition required (os : os_env) (key : string) : result str :=
  match dict_get (lit key) (environ os) with
  | Some v => if truthy v then Ok v else Err (missing key)
  | None => Err (missing key)
  end.

Definition prepare (os : os_env) (r : row) : result request :=
  match required os "JIRA_BASE_URL" with
  | Err e => Err e
  | Ok base_url =>
  match required os "JIRA_PROJECT_KEY" with
  | Err e => Err e
  | Ok project_key =>
  match required os "JIRA_EMAIL" with
  | Err e => Err e
  | Ok email =>
  match required os "JIRA_API_TOKEN" with
  | Err e => Err e
  | Ok token => Ok (issue_request os r base_url project_key email token)
  end end end end.

(** What a response is turned into. *)
Definition read_response (resp : response) : result pyobj :=
  if (status_code resp >=? 300)%Z
  then Err (RuntimeError (str_of_int (status_code resp) ++ lit " " ++ text resp))
  else match resp_json resp with
       | None => Err (JSONDecodeError (text resp))
       | Some (VDict d) =>
           match dict_get (lit "key") d with
           | Some key => Ok key
           | None => Err (KeyError (lit "key"))
           end
       | Some data => Err (TypeError data)
       end.

Definition respond {W} (out : list line) (answer : result response * W)
  : result pyobj * state W :=
  match answer with
  | (Ok resp, w) => (read_response resp, {| world := w; stdout := out |})
  | (Err e, w) => (Err e, {| world := w; stdout := out |})
  end.

(** The outcomes of the rows of a batch, in order, each row meeting the
    world the rows before it left, and the world after the last row. *)
Fixpoint outcomes {W} (http_post : request -> W -> result response * W)
    (os : os_env) (rows : list row) (w : W) : list (result pyobj) :=
  match rows with
  | [] => []
  | r :: rest =>
      let '(res, st) := create_issue http_post r os {| world := w; stdout := [] |} in
      res :: outcomes http_post os rest (world st)
  end.

Fixpoint final_world {W} (http_post : request -> W -> result response * W)
    (os : os_env) (rows : list row) (w : W) : W :=
  match rows with
  | [] => w
  | r :: rest =>
      let '(_, st) := create_issue http_post r os {| world := w; stdout := [] |} in
      final_world http_post os rest (world st)
  end.

Definition is_ok {A} (res : result A) : bool :=
  match res with Ok _ => true | Err _ => false end.

Definition successes (outs : list (result pyobj)) : nat :=
  length (List.filter is_ok outs).

(** The line that reports an outcome at a position, and the lines of a
    batch: the outcomes paired with the positions 1, 2, ... *)
Definition report (p : nat * result pyobj) : line :=
  match snd p with
  | Ok key => LCreated (fst p) key
  | Err e => LError (fst p) e
  end.

Definition reports_from (i : nat) (outs : list (result pyobj)) : list line :=
  List.map report (combine (seq i (length outs)) outs).

Definition reports (outs : list (result pyobj)) : list line := reports_from 1 outs.


(** ** Example data *)

(** A server that answers from a script, one reply per request. *)
Definition scripted (req : request) (replies : list (result response))
  : result response * list (result response) :=
  match replies with
  | [] => (Err (RequestException (lit "no reply")), [])
  | reply :: rest => (reply, rest)
  end.

Definition example_environ : dict str :=
  [ (lit "CSV_PATH", lit "issues.csv");
    (lit "JIRA_BASE_URL", lit "https://example.atlassian.net/");
    (lit "JIRA_EMAIL", lit "me@example.com");
    (lit "JIRA_API_TOKEN", lit "secret");
    (lit "JIRA_PROJECT_KEY", lit "PROJ") ].

(** The two-row file of the specification's end-to-end example. *)
Definition example_rows : list row :=
  [ [ (lit "Summary", Some (lit "Fix bug"));
      (lit "Labels", Some (lit "a, b"));
      (lit "Description", Some (lit "line1" ++ [LF] ++ lit "line2")) ];
    [ (lit "Summary", Some []);
      (lit "Labels", Some []);
      (lit "Description", Some []) ] ].

Definition example_table : csv_table :=
  {| fieldnames := [lit "Summary"; lit "Labels"; lit "Description"];
     csv_rows := example_rows |}.

Definition example_files (path : str) : option csv_table :=
  if str_eqb path (lit "issues.csv") then Some example_table else None.

(** A disk on which the paths of [tables] read to their end and no other
    path exists. *)
Definition disk_of (tables : str -> option csv_table) (path : str) : file_state :=
  match tables path with
  | Some table => Reads table None
  | None => NoFile
  end.

Definition example_os : os_env :=
  {| environ := example_environ; disk := disk_of example_files |}.

(** The example file with a second line the reader cannot parse, a
    directory in its place, and a file that is not UTF-8. *)
Definition broken_disk (path : str) : file_state :=
  if str_eqb path (lit "issues.csv")
  then Reads {| fieldnames := fieldnames example_table;
                csv_rows := [hd [] example_rows] |}
             (Some (CsvError (lit "line contains NUL")))
  else if str_eqb path (lit "folder")
  then OpenFails (OSError (lit "Is a directory"))
  else if str_eqb path (lit "latin1.csv")
  then HeaderFails (UnicodeDecodeError (lit "invalid start byte"))
  else NoFile.

Definition broken_os (path : string) : os_env :=
  {| environ := dict_set (lit "CSV_PATH") (lit path) example_environ;
     disk := broken_disk |}.

(** The same run without the base URL setting. *)
Definition no_base_url_os : os_env :=
  {| environ := [ (lit "CSV_PATH", lit "issues.csv");
                  (lit "JIRA_EMAIL", lit "me@example.com");
                  (lit "JIRA_API_TOKEN", lit "secret");
                  (lit "JIRA_PROJECT_KEY", lit "PROJ") ];
     disk := disk_of example_files |}.

Definition created_body (key : string) : option pyobj :=
  Some (VDict [ (lit "id", VStr (lit "10001")); (lit "key", VStr (lit key)) ]).

Definition resp_201 : response :=
  {| status_code := 201; text := lit "{...}"; resp_json := created_body "PROJ-1" |}.

Definition resp_400 : response :=
  {| status_code := 400; text := lit "bad request"; resp_json := None |}.


Definition start (replies : list (result response)) : state (list (result response)) :=
  {| world := replies; stdout := [] |}.

Definition first_row : row := hd [] example_rows.

Definition row_missing_summary : row :=
  [ (lit "Labels", Some (lit "a, b")); (lit "Description", None) ].

Definition row_blank_labels : row :=
  [ (lit "Summary", Some (lit "Fix bug")); (lit "Labels", Some (lit "  ")) ].

(** ** Observation *)

(** A server that also keeps, in order, the requests it was sent. *)
Definition recording {W} (http_post : request -> W -> result response * W)
    (req : request) (wl : W * list request)
  : result response * (W * list request) :=
  let '(res, w) := http_post req (fst wl) in
  (res, (w, snd wl ++ [req])).

(** The texts of the paragraphs of a document, in order. *)
Definition paragraph_text (p : pyobj) : list str :=
  match p with
  | VDict d =>
      match dict_get (lit "content") d with
      | Some (VList [VDict t]) =>
          match dict_get (lit "text") t with
          | Some (VStr s) => [s]
          | _ => []
          end
      | _ => []
      end
  | _ => []
  end.

Definition paragraph_texts (doc : pyobj) : list str :=
  flat_map paragraph_text (paragraphs doc).

Definition dict_keys {V} (d : dict V) : list str := List.map fst d.

(** Texts in which every line boundary is a "\n". *)
Definition only_lf (s : str) : bool :=
  forallb (fun c => negb (is_linebreak c) || (c =? LF)%N) s.

(** Strings of white space and commas. *)
Definition blank_or_comma (s : str) : bool :=
  forallb (fun c => is_space c || (c =? COMMA)%N) s.

(** The value the mapping loop stores for a field that is not "summary",
    "labels" or "description" (lines 107-116). *)
Definition other_value (as_list : list str) (jira_field val : str) : pyobj :=
  if startswith (lit "customfield_") jira_field then
    if mem_str jira_field as_list
    then VList (if truthy val then [VStr val] else [])
    else VStr val
  else VStr val.

(** The issue type [create_issue] uses (line 137). *)
Definition issue_type_of (os : os_env) : str :=
  match dict_get (lit "JIRA_ISSUE_TYPE") (environ os) with
  | Some t => t
  | None => lit "Task"
  end.

(** A field map with a list-valued and a plain custom field and a field
    passed through. *)
Definition custom_map : dict str :=
  [ (lit "Summary", lit "summary");
    (lit "Client", lit "customfield_10010");
    (lit "Team", lit "customfield_10020");
    (lit "Env", lit "environment") ].

Definition custom_as_list : list str := [lit "customfield_10010"].

Definition custom_row : row :=
  [ (lit "Summary", Some (lit "Fix bug"));
    (lit "Client", Some (lit " ACME "));
    (lit "Team", Some (lit "core"));
    (lit "Env", Some []) ].

(** The first example row with padded cells and a column of its own. *)
Definition padded_row : row :=
  [ (lit "Notes", Some (lit "ignored"));
    (lit "Summary", Some (lit "  Fix bug "));
    (lit "Labels", Some (lit "a, b  "));
    (lit "Description", Some (lit "line1" ++ [LF] ++ lit "line2" ++ [LF])) ].

Definition all_settings_os (issue_type : option str) : os_env :=
  {| environ :=
       match issue_type with
       | Some t => dict_set (lit "JIRA_ISSUE_TYPE") t example_environ
       | None => example_environ
       end;
     disk := disk_of example_files |}.

(** ** Strings and dictionaries: basic facts *)

Lemma str_eqb_spec (a b : str) : reflect (a = b) (str_eqb a b).
Proof.
  revert b; induction a as [|x a IH]; intros [|y b]; simpl;
    try (constructor; congruence).
  destruct (N.eqb_spec x y) as [->|Hxy]; simpl.
  - destruct (IH b) as [->|Hab]; constructor; congruence.
  - constructor; congruence.
Qed.

Lemma str_eqb_refl (a : str) : str_eqb a a = true.
Proof. destruct (str_eqb_spec a a); congruence. Qed.

Lemma str_eqb_neq (a b : str) : a <> b -> str_eqb a b = false.
Proof. destruct (str_eqb_spec a b); congruence. Qed.

Lemma dict_get_set_eq {V} (k : str) (v : V) (d : dict V) :
  dict_get k (dict_set k v d) = Some v.
Proof.
  induction d as [|[k' v'] d IH]; simpl.
  - now rewrite str_eqb_refl.
  - destruct (str_eqb k k') eqn:E; simpl; rewrite E; auto.
Qed.

Lemma dict_get_set_neq {V} (k k' : str) (v : V) (d : dict V) :
  k <> k' -> dict_get k (dict_set k' v d) = dict_get k d.
Proof.
  intros Hne; induction d as [|[k0 v0] d IH]; simpl.
  - now rewrite str_eqb_neq.
  - destruct (str_eqb_spec k' k0) as [->|Hk0]; simpl.
    + now rewrite str_eqb_neq.
    + destruct (str_eqb k k0); auto.
Qed.

Lemma dropwhile_all p s : forallb p s = true -> dropwhile p s = [].
Proof.
  induction s as [|c s IH]; simpl; auto.
  destruct (p c); simpl; auto; discriminate.
Qed.

Lemma dropwhile_head p s c r : dropwhile p s = c :: r -> p c = false.
Proof.
  induction s as [|x s IH]; simpl; try discriminate.
  destruct (p x) eqn:E; auto.
  intros H; injection H as -> _; exact E.
Qed.

Lemma dropwhile_decomp p s :
  exists a, s = a ++ dropwhile p s /\ forallb p a = true.
Proof.
  induction s as [|c s [a [Ha Hp]]]; simpl.
  - now exists [].
  - destruct (p c) eqn:E.
    + exists (c :: a); simpl; rewrite E, Hp; split; [congruence | reflexivity].
    + now exists [].
Qed.

Lemma dropwhile_nil p s : dropwhile p s = [] -> forallb p s = true.
Proof.
  destruct (dropwhile_decomp p s) as [a [Ha Hp]]; intros E.
  rewrite E, app_nil_r in Ha; congruence.
Qed.

Lemma forallb_rev {A} (p : A -> bool) l : forallb p (rev l) = forallb p l.
Proof.
  induction l as [|x l IH]; simpl; auto.
  rewrite forallb_app, IH; simpl. rewrite andb_true_r. apply andb_comm.
Qed.

(** [strip] gives the empty string exactly on blank strings. *)
Lemma truthy_strip (s : str) : truthy (strip s) = negb (blank s).
Proof.
  unfold strip, rstrip_by, lstrip_by, blank.
  destruct (forallb is_space s) eqn:E; simpl.
  - now rewrite (dropwhile_all _ _ E).
  - destruct (rev (dropwhile is_space (rev (dropwhile is_space s)))) eqn:R; auto.
    exfalso.
    apply (f_equal (@rev _)) in R; rewrite rev_involutive in R; simpl in R.
    apply dropwhile_nil in R; rewrite forallb_rev in R.
    destruct (dropwhile is_space s) as [|c r] eqn:D.
    + apply dropwhile_nil in D; congruence.
    + apply dropwhile_head in D; simpl in R; rewrite D in R; discriminate.
Qed.

(** What [strip] removes is white space, on both sides, and what is left
    neither starts nor ends with white space. *)
Lemma strip_decomp (s : str) :
  exists a b, s = a ++ strip s ++ b /\ blank a = true /\ blank b = true.
Proof.
  unfold strip, rstrip_by, lstrip_by, blank.
  destruct (dropwhile_decomp is_space s) as [a [Ha Hpa]].
  destruct (dropwhile_decomp is_space (rev (dropwhile is_space s))) as [b [Hb Hpb]].
  exists a, (rev b); repeat split; auto.
  - rewrite <- rev_app_distr, <- Hb, rev_involutive; exact Ha.
  - now rewrite forallb_rev.
Qed.

Lemma strip_first (s : str) c r : strip s = c :: r -> is_space c = false.
Proof.
  unfold strip, rstrip_by, lstrip_by; intros H.
  destruct (dropwhile_decomp is_space (rev (dropwhile is_space s))) as [b [Hb _]].
  apply (f_equal (@rev _)) in Hb; rewrite rev_involutive, rev_app_distr, H in Hb.
  simpl in Hb. now apply dropwhile_head in Hb.
Qed.

Lemma strip_last (s : str) r c : strip s = r ++ [c] -> is_space c = false.
Proof.
  unfold strip, rstrip_by; intros H.
  apply (f_equal (@rev _)) in H; rewrite rev_involutive, rev_app_distr in H.
  simpl in H. now apply dropwhile_head in H.
Qed.

(** ** [split] and [splitlines] *)

Lemma split_from_nonempty sep cur s : split_from sep cur s <> [].
Proof.
  revert cur; induction s as [|c s IH]; intros cur; simpl; try discriminate.
  destruct (c =? sep)%N; [discriminate | apply IH].
Qed.

Lemma split_from_join sep cur s :
  join sep (split_from sep cur s) = rev cur ++ s.
Proof.
  revert cur; induction s as [|c s IH]; intros cur; simpl.
  - reflexivity.
  - destruct (N.eqb_spec c sep) as [->|Hc].
    + simpl. destruct (split_from sep [] s) as [|p ps] eqn:E.
      * now apply split_from_nonempty in E.
      * rewrite <- E, IH. reflexivity.
    + rewrite IH. simpl. now rewrite <- app_assoc.
Qed.

Lemma split_from_no_sep sep cur s :
  no_char sep cur = true ->
  Forall (fun p => no_char sep p = true) (split_from sep cur s).
Proof.
  revert cur; induction s as [|c s IH]; intros cur Hcur; simpl.
  - constructor; auto. unfold no_char in *. now rewrite forallb_rev.
  - destruct (c =? sep)%N eqn:E.
    + constructor.
      * unfold no_char in *. now rewrite forallb_rev.
      * now apply IH.
    + apply IH. unfold no_char in *; simpl. now rewrite E, Hcur.
Qed.

(** Joining the pieces with the separator gives the string back, and no
    piece holds a separator: [split] cuts at every separator and nowhere
    else. *)
Lemma split_spec sep s :
  join sep (split sep s) = s /\
  Forall (fun p => no_char sep p = true) (split sep s).
Proof.
  split.
  - apply (split_from_join sep [] s).
  - now apply split_from_no_sep.
Qed.

Lemma map_filter_swap {A B} (f : A -> B) (p : B -> bool) (l : list A) :
  List.map f (List.filter (fun x => p (f x)) l) = List.filter p (List.map f l).
Proof.
  induction l as [|x l IH]; simpl; auto.
  destruct (p (f x)); simpl; congruence.
Qed.

Lemma count_breaks_flag c c' rest :
  (c =? CR)%N && (c' =? LF)%N = false ->
  count_breaks_from (c =? CR)%N (c' :: rest) = count_breaks_from false (c' :: rest).
Proof.
  intros E; simpl. now rewrite E.
Qed.

Lemma splitlines_from_length n : forall s cur,
  length s <= n ->
  length (splitlines_from cur s)
  = count_breaks_from false s + (if ends_open (truthy cur) s then 1 else 0).
Proof.
  induction n as [|n IH]; intros [|c rest] cur Hlen; simpl in Hlen; try lia;
    try (destruct cur; reflexivity).
  cbn [splitlines_from count_breaks_from ends_open].
  destruct (is_linebreak c) eqn:Hc; cbn [negb andb].
  - destruct rest as [|c' rest'].
    + reflexivity.
    + destruct ((c =? CR)%N && (c' =? LF)%N) eqn:E.
      * apply andb_prop in E as [E1 E2].
        apply N.eqb_eq in E1, E2; subst c c'.
        cbn [length]. rewrite IH by (simpl in Hlen; lia).
        reflexivity.
      * cbn [length]. rewrite IH by (simpl in Hlen |- *; lia).
        rewrite (count_breaks_flag _ _ _ E). reflexivity.
  - rewrite IH by lia. reflexivity.
Qed.

(** [splitlines] returns as many lines as the text has. *)
Lemma splitlines_length (s : str) :
  length (splitlines s) = number_of_lines s.
Proof. exact (splitlines_from_length (length s) s [] (le_n _)). Qed.

Lemma splitlines_from_lines n : forall s cur,
  length s <= n -> no_linebreak cur = true ->
  lines_of (rev cur ++ s) (splitlines_from cur s).
Proof.
  induction n as [|n IH]; intros [|c rest] cur Hlen Hcur; simpl in Hlen; try lia.
  - simpl. rewrite app_nil_r. destruct cur as [|x cur].
    + constructor.
    + constructor.
      * intros E. apply (f_equal (@length _)) in E.
        rewrite length_rev in E. discriminate.
      * unfold no_linebreak in *. now rewrite forallb_rev.
  - simpl. rewrite app_nil_r. destruct cur as [|x cur].
    + constructor.
    + constructor.
      * intros E. apply (f_equal (@length _)) in E.
        rewrite length_rev in E. discriminate.
      * unfold no_linebreak in *. now rewrite forallb_rev.
  - cbn [splitlines_from].
    assert (Hrev : no_linebreak (rev cur) = true)
      by (unfold no_linebreak in *; now rewrite forallb_rev).
    destruct (is_linebreak c) eqn:Hc.
    + destruct rest as [|c' rest'].
      * apply (lines_more (rev cur) [c] []); auto.
        -- constructor; auto. intros _ rest' E; discriminate.
        -- constructor.
      * destruct ((c =? CR)%N && (c' =? LF)%N) eqn:E.
        -- apply andb_prop in E as [E1 E2].
           apply N.eqb_eq in E1, E2; subst c c'.
           apply (lines_more (rev cur) [CR; LF] rest'); auto.
           ++ constructor.
           ++ apply (IH rest' []); [simpl in Hlen; lia | reflexivity].
        -- apply (lines_more (rev cur) [c] (c' :: rest')); auto.
           ++ constructor; auto.
              intros -> r' Er'; injection Er' as -> _.
              discriminate E.
           ++ apply (IH (c' :: rest') []); [simpl in Hlen |- *; lia | reflexivity].
    + replace (rev cur ++ c :: rest) with (rev (c :: cur) ++ rest)
        by (simpl; now rewrite <- app_assoc).
      apply IH; [lia |].
      unfold no_linebreak in *; simpl. now rewrite Hc, Hcur.
Qed.

(** [splitlines] cuts the text into its lines. *)
Lemma splitlines_spec (s : str) : lines_of s (splitlines s).
Proof. exact (splitlines_from_lines (length s) s [] (le_n _) eq_refl). Qed.

(** A terminator put after an unfinished last line closes that line and
    adds no line. *)
Lemma splitlines_from_close n : forall (s cur : str) (c : char),
  length s <= n ->
  is_linebreak c = true ->
  ends_open (truthy cur) s = true ->
  splitlines_from cur (s ++ [c]) = splitlines_from cur s.
Proof.
  induction n as [|n IH]; intros [|x rest] cur c Hlen Hc Hopen;
    simpl in Hlen; try lia.
  - destruct cur; [discriminate | simpl; now rewrite Hc].
  - destruct cur; [discriminate | simpl; now rewrite Hc].
  - cbn [app splitlines_from]. cbn [ends_open] in Hopen.
    destruct (is_linebreak x) eqn:Hx; cbn [negb] in Hopen.
    + destruct rest as [|y rest']; [discriminate |].
      cbn [app]. f_equal.
      destruct ((x =? CR)%N && (y =? LF)%N) eqn:E.
      * apply andb_prop in E as [_ Ey]. apply N.eqb_eq in Ey; subst y.
        apply IH; [simpl in Hlen; lia | exact Hc | exact Hopen].
      * apply (IH (y :: rest') []); [simpl in Hlen |- *; lia | exact Hc | exact Hopen].
    + apply IH; [lia | exact Hc | exact Hopen].
Qed.

Lemma splitlines_close (s : str) (c : char) :
  is_linebreak c = true -> ends_open false s = true ->
  splitlines (s ++ [c]) = splitlines s.
Proof.
  intros Hc Hopen.
  exact (splitlines_from_close (length s) s [] c (le_n _) Hc Hopen).
Qed.

Lemma number_of_lines_pos (s : str) : forall b,
  s <> [] \/ b = true ->
  1 <= count_breaks_from false s + (if ends_open b s then 1 else 0).
Proof.
  induction s as [|c s IH]; intros b [H|H]; try congruence.
  - subst b; simpl; lia.
  - simpl. destruct (is_linebreak c); simpl; [lia | apply IH; now right].
  - simpl. destruct (is_linebreak c); simpl; [lia | apply IH; now right].
Qed.

Lemma splitlines_nonempty (s : str) : s <> [] -> splitlines s <> [].
Proof.
  intros Hs E. apply (f_equal (@length _)) in E.
  rewrite splitlines_length in E.
  pose proof (number_of_lines_pos s false (or_introl Hs)) as Hpos.
  unfold number_of_lines, count_linebreaks in E. simpl in E. lia.
Qed.

(** ** Document Converter *)

Lemma to_adf_doc_content (text : str) :
  to_adf_doc (Some text)
  = VDict [ (lit "type", VStr (lit "doc"));
            (lit "version", VInt 1);
            (lit "content",
             VList (List.map paragraph
                      (if truthy text then splitlines text else [[]]))) ].
Proof.
  unfold to_adf_doc, or_empty.
  destruct text as [|c text]; [reflexivity |].
  cbn [truthy].
  destruct (splitlines (c :: text)) as [|l ls] eqn:E; [| reflexivity].
  now apply splitlines_nonempty in E.
Qed.

Lemma to_adf_doc_paragraphs (text : str) :
  paragraphs (to_adf_doc (Some text))
  = List.map paragraph (if truthy text then splitlines text else [[]]).
Proof. now rewrite to_adf_doc_content. Qed.

Lemma to_adf_doc_length (text : str) :
  length (paragraphs (to_adf_doc (Some text)))
  = if truthy text then number_of_lines text else 1.
Proof.
  rewrite to_adf_doc_paragraphs, length_map.
  destruct text; [reflexivity | apply splitlines_length].
Qed.

(** A missing text is converted as the empty text is. *)
Lemma to_adf_doc_none : to_adf_doc None = to_adf_doc (Some []).
Proof. reflexivity. Qed.

(** C2: for every input string the converter returns a document tagged
    "doc" with version 1; it has one paragraph per line of the input
    (one paragraph with empty text for the empty input), and the
    paragraphs are, in order, the one-text-node paragraphs of the lines of
    the input. *)
Theorem to_adf_doc_paragraph_per_line (text : str) :
  let doc := to_adf_doc (Some text) in
  doc_attr "type" doc = Some (VStr (lit "doc")) /\
  doc_attr "version" doc = Some (VInt 1) /\
  length (paragraphs doc) = (if truthy text then number_of_lines text else 1) /\
  paragraphs doc
  = List.map paragraph (if truthy text then splitlines text else [[]]) /\
  lines_of text (splitlines text).
Proof.
  cbv zeta. split; [| split; [| split; [| split]]].
  - now rewrite to_adf_doc_content.
  - now rewrite to_adf_doc_content.
  - apply to_adf_doc_length.
  - apply to_adf_doc_paragraphs.
  - apply splitlines_spec.
Qed.

(** C9: a text that ends with a line terminator has as many paragraphs as
    it has terminators, so the last terminator closes the last line and
    opens no further, empty one; a terminator put after an unfinished
    last line leaves the document as it was; a single terminated line
    gives the one paragraph of that line; "line1\n" gives one paragraph
    and "\n" the one empty paragraph of the empty text. *)
Theorem to_adf_doc_no_trailing_paragraph :
  (forall text : str,
      ends_with_linebreak text = true ->
      length (paragraphs (to_adf_doc (Some text))) = count_linebreaks text) /\
  (forall (text : str) (c : char),
      is_linebreak c = true -> ends_open false text = true ->
      to_adf_doc (Some (text ++ [c])) = to_adf_doc (Some text)) /\
  (forall (l : str) (c : char),
      no_linebreak l = true -> is_linebreak c = true ->
      paragraphs (to_adf_doc (Some (l ++ [c]))) = [paragraph l]) /\
  paragraphs (to_adf_doc (Some (lit "line1" ++ [LF]))) = [paragraph (lit "line1")] /\
  paragraphs (to_adf_doc (Some [LF])) = [paragraph []] /\
  to_adf_doc (Some [LF]) = to_adf_doc (Some []).
Proof.
  assert (Hone : forall (l : str) (c : char) cur,
             no_linebreak l = true -> is_linebreak c = true ->
             splitlines_from cur (l ++ [c]) = [rev cur ++ l]).
  { induction l as [|x l IH]; intros c cur Hl Hc; simpl.
    - now rewrite Hc, app_nil_r.
    - unfold no_linebreak in Hl; simpl in Hl.
      apply andb_prop in Hl as [Hx Hl].
      apply negb_true_iff in Hx; rewrite Hx.
      rewrite IH by auto. simpl. now rewrite <- app_assoc. }
  split; [| split; [| split; [| split; [| split]]]].
  - intros text Hend.
    rewrite to_adf_doc_length.
    destruct text as [|c r]; [discriminate |].
    unfold number_of_lines, ends_with_linebreak in *. cbn [truthy].
    change (ends_open false (c :: r)) with (ends_open true (c :: r)).
    apply negb_true_iff in Hend. rewrite Hend. unfold count_linebreaks. lia.
  - intros text c Hc Hopen. rewrite !to_adf_doc_content.
    rewrite (splitlines_close text c Hc Hopen).
    destruct text; [discriminate | reflexivity].
  - intros l c Hl Hc. rewrite to_adf_doc_paragraphs.
    unfold splitlines. rewrite Hone by auto.
    destruct l; reflexivity.
  - reflexivity.
  - reflexivity.
  - reflexivity.
Qed.

Lemma to_adf_doc_no_trailing_paragraph_witness :
  ends_with_linebreak (lit "a" ++ [LF; LF]) = true /\
  length (paragraphs (to_adf_doc (Some (lit "a" ++ [LF; LF]))))
  = count_linebreaks (lit "a" ++ [LF; LF]).
Proof.
  split.
  - reflexivity.
  - apply (proj1 to_adf_doc_no_trailing_paragraph). reflexivity.
Defined.

(** ** Labels *)

(** Every label is a trimmed, non-empty piece without a comma. *)
Lemma parse_labels_pieces (s : str) :
  Forall (fun l => l <> [] /\ no_char COMMA l = true /\
                   (forall c r, l = c :: r -> is_space c = false) /\
                   (forall r c, l = r ++ [c] -> is_space c = false))
         (parse_labels (Some s)).
Proof.
  unfold parse_labels. destruct (truthy s); simpl; [| constructor].
  destruct (split_spec COMMA s) as [_ Hno].
  induction Hno as [|p ps Hp _ IH]; simpl; [constructor |].
  destruct (truthy (strip p)) eqn:T; simpl; auto.
  constructor; auto. repeat split.
  - intros E; rewrite E in T; discriminate.
  - destruct (strip_decomp p) as [a [b [E _]]].
    unfold no_char in *. rewrite E, !forallb_app in Hp.
    apply andb_prop in Hp as [_ Hp]. now apply andb_prop in Hp as [Hp _].
  - intros c r. apply strip_first.
  - intros r c. apply strip_last.
Qed.

(** C6: [parse_labels] gives the empty sequence for a missing value and
    for the empty string; for every string it returns the pieces between
    the commas, trimmed, without the empty ones, in their order and with
    their duplicates; "a, b ,,c" gives a, b, c. *)
Theorem parse_labels_correct :
  parse_labels None = [] /\
  parse_labels (Some []) = [] /\
  (forall s : str,
      parse_labels (Some s) = parse_labels_spec s /\
      join COMMA (split COMMA s) = s /\
      Forall (fun p => no_char COMMA p = true) (split COMMA s)) /\
  parse_labels (Some (lit "a, b ,,c")) = [lit "a"; lit "b"; lit "c"] /\
  parse_labels (Some (lit "b,a,b")) = [lit "b"; lit "a"; lit "b"].
Proof.
  split; [reflexivity |]. split; [reflexivity |].
  split; [| split; reflexivity].
  intros s. split; [| apply split_spec].
  unfold parse_labels, parse_labels_spec.
  destruct s as [|c s]; [reflexivity |].
  cbn [truthy negb]. apply map_filter_swap.
Qed.

(** ** Field Mapper *)

Ltac lit_neq :=
  let H := fresh in intro H; vm_compute in H; discriminate H.

(** What one step of the mapping loop does to the "summary" entry. *)
Lemma map_field_summary as_list (r : row) fields c f :
  dict_get (lit "summary") (map_field as_list r fields (c, f))
  = if str_eqb f (lit "summary") && truthy (strip (cell r c))
    then Some (VStr (strip (cell r c)))
    else dict_get (lit "summary") fields.
Proof.
  unfold map_field. set (val := strip (cell r c)).
  destruct (str_eqb_spec f (lit "summary")) as [->|Hne].
  - change (mem_str (lit "summary") [lit "summary"]) with true.
    destruct (truthy val); cbn [negb andb]; [| reflexivity].
    change (str_eqb (lit "summary") (lit "labels")) with false.
    change (str_eqb (lit "summary") (lit "description")) with false.
    change (startswith (lit "customfield_") (lit "summary")) with false.
    cbv iota. apply dict_get_set_eq.
  - unfold mem_str; cbn [existsb]. rewrite (str_eqb_neq _ _ Hne).
    rewrite andb_false_r. cbn [orb andb].
    destruct (str_eqb_spec f (lit "labels")) as [->|_];
      [apply dict_get_set_neq; lit_neq |].
    destruct (str_eqb_spec f (lit "description")) as [->|_];
      [apply dict_get_set_neq; lit_neq |].
    destruct (startswith (lit "customfield_") f);
      [destruct (existsb (str_eqb f) as_list) |];
      apply dict_get_set_neq; congruence.
Qed.

(** What one step of the mapping loop does to the "labels" entry. *)
Lemma map_field_labels as_list (r : row) fields c f :
  dict_get (lit "labels") (map_field as_list r fields (c, f))
  = if str_eqb f (lit "labels")
    then Some (VList (List.map VStr (parse_labels (Some (strip (cell r c))))))
    else dict_get (lit "labels") fields.
Proof.
  unfold map_field. set (val := strip (cell r c)).
  destruct (str_eqb_spec f (lit "labels")) as [->|Hne].
  - change (mem_str (lit "labels") [lit "summary"]) with false.
    rewrite andb_false_r. apply dict_get_set_eq.
  - destruct (negb (truthy val) && mem_str f [lit "summary"]); [reflexivity |].
    destruct (str_eqb_spec f (lit "description")) as [->|_];
      [apply dict_get_set_neq; lit_neq |].
    destruct (startswith (lit "customfield_") f);
      [destruct (mem_str f as_list) |];
      apply dict_get_set_neq; congruence.
Qed.

(** The optional assignee and parent entries leave the other entries as
    the mapping loop made them. *)
Lemma payload_entry (k : str) field_map as_list (r : row) pk it ek aa :
  k <> lit "assignee" -> k <> lit "parent" ->
  dict_get k (fields_of (create_issue_payload_with field_map as_list r pk it ek aa))
  = dict_get k
      (fold_left (map_field as_list r) field_map
         [ (lit "project", VDict [(lit "key", VStr pk)]);
           (lit "issuetype", VDict [(lit "name", VStr it)]) ]).
Proof.
  intros Ha Hp. unfold create_issue_payload_with, fields_of.
  cbn [dict_get]. change (str_eqb (lit "fields") (lit "fields")) with true.
  cbv iota.
  destruct ek as [k'|]; [destruct (truthy k') |];
    (destruct aa as [a|]; [destruct (truthy a) |]);
    rewrite ?dict_get_set_neq by assumption; reflexivity.
Qed.

(** The mapping reads a row only through [cell]. *)
Lemma map_field_ext as_list (r1 r2 : row) :
  (forall c, cell r1 c = cell r2 c) ->
  forall field_map fields,
    fold_left (map_field as_list r1) field_map fields
    = fold_left (map_field as_list r2) field_map fields.
Proof.
  intros H field_map; induction field_map as [|[c f] fm IH]; intros fields; simpl.
  - reflexivity.
  - rewrite H. apply IH.
Qed.

Lemma cell_missing (r : row) (col : str) :
  dict_get col r = None \/ dict_get col r = Some None ->
  cell r col = [] /\ forall c, cell r c = cell (dict_set col (Some []) r) c.
Proof.
  intros H.
  assert (E : cell r col = []) by (unfold cell; destruct H as [-> | ->]; reflexivity).
  split; [exact E |].
  intros c. unfold cell at 2.
  destruct (str_eqb_spec c col) as [->|Hne].
  - now rewrite dict_get_set_eq.
  - now rewrite dict_get_set_neq.
Qed.

Lemma cell_of_row (r : row) (col : str) :
  cell r col
  = match dict_get col r with
    | Some (Some s) => s
    | _ => []
    end.
Proof.
  unfold cell, or_empty.
  destruct (dict_get col r) as [[s|]|]; try reflexivity.
  now destruct s.
Qed.

(** C5: the payload has no "summary" entry when the row has no Summary
    column, or no value in it, or a value that is empty or white space
    only; otherwise its "summary" entry is the value of the row's Summary
    column with the white space at both ends removed.  So a row whose
    Summary is "  Fix bug " is sent with the summary "Fix bug", and a row
    whose Summary is one space is sent without one. *)
Theorem summary_entry :
  (forall (r : row) (project_key issue_type : str)
          (epic_key assignee_account_id : option str),
      dict_get (lit "summary")
        (fields_of (create_issue_payload r project_key issue_type epic_key
                      assignee_account_id))
      = match dict_get (lit "Summary") r with
        | Some (Some s) => if blank s then None else Some (VStr (strip s))
        | _ => None
        end /\
      dict_get (lit "summary")
        (fields_of (create_issue_payload r project_key issue_type epic_key
                      assignee_account_id))
      = if blank (cell r (lit "Summary"))
        then None
        else Some (VStr (strip (cell r (lit "Summary"))))) /\
  dict_get (lit "summary")
    (fields_of (create_issue_payload padded_row (lit "PROJ") (lit "Task")
                  None None))
  = Some (VStr (lit "Fix bug")) /\
  dict_get (lit "summary")
    (fields_of (create_issue_payload
                  [(lit "Summary", Some (lit " ")); (lit "Labels", Some (lit "a"))]
                  (lit "PROJ") (lit "Task") None None))
  = None.
Proof.
  assert (E : forall (r : row) pk it ek aa,
             dict_get (lit "summary")
               (fields_of (create_issue_payload r pk it ek aa))
             = if blank (cell r (lit "Summary"))
               then None
               else Some (VStr (strip (cell r (lit "Summary"))))).
  { intros r pk it ek aa. unfold create_issue_payload.
    rewrite payload_entry by lit_neq.
    unfold FIELD_MAP; cbn [fold_left].
    rewrite !map_field_summary.
    change (str_eqb (lit "description") (lit "summary")) with false.
    change (str_eqb (lit "labels") (lit "summary")) with false.
    change (str_eqb (lit "summary") (lit "summary")) with true.
    cbn [andb]. rewrite truthy_strip.
    destruct (blank (cell r (lit "Summary"))); reflexivity. }
  split; [| split].
  - intros r pk it ek aa. split; [| apply E].
    rewrite E, cell_of_row.
    destruct (dict_get (lit "Summary") r) as [[s|]|]; reflexivity.
  - rewrite E. reflexivity.
  - rewrite E. reflexivity.
Qed.

Lemma summary_entry_witness :
  dict_get (lit "Summary") padded_row = Some (Some (lit "  Fix bug ")) /\
  dict_get (lit "summary")
    (fields_of (create_issue_payload padded_row (lit "PROJ") (lit "Task")
                  None None))
  = Some (VStr (lit "Fix bug")).
Proof.
  split; [reflexivity |].
  rewrite (proj1 (proj1 summary_entry padded_row (lit "PROJ") (lit "Task")
                    None None)).
  reflexivity.
Defined.

(** For any field map in which [col] is the one column mapped to
    "summary", the payload has no "summary" entry when the cell of [col]
    is blank and has the trimmed cell under "summary" otherwise. *)
Lemma summary_entry_any_map field_map as_list (r : row) (col : str)
    (project_key issue_type : str) (epic_key assignee_account_id : option str) :
  In (col, lit "summary") field_map ->
  (forall c, In (c, lit "summary") field_map -> c = col) ->
  dict_get (lit "summary")
    (fields_of (create_issue_payload_with field_map as_list r project_key
                  issue_type epic_key assignee_account_id))
  = if blank (cell r col) then None else Some (VStr (strip (cell r col))).
Proof.
  intros Hin Huniq. rewrite payload_entry by lit_neq.
  assert (Hfold : forall fm fields,
    (forall c, In (c, lit "summary") fm -> c = col) ->
    dict_get (lit "summary") (fold_left (map_field as_list r) fm fields)
    = if existsb (fun cf => str_eqb (snd cf) (lit "summary")) fm
         && truthy (strip (cell r col))
      then Some (VStr (strip (cell r col)))
      else dict_get (lit "summary") fields).
  { induction fm as [|[c f] fm IH]; intros fields Hu;
      cbn [fold_left existsb snd]; [reflexivity |].
    rewrite IH by (intros c' Hc'; apply Hu; now right).
    rewrite map_field_summary.
    destruct (str_eqb_spec f (lit "summary")) as [->|Hne]; cbn [orb andb].
    - rewrite (Hu c (or_introl eq_refl)).
      destruct (truthy (strip (cell r col)));
        rewrite ?andb_true_r, ?andb_false_r; try reflexivity.
      now destruct (existsb _ fm).
    - reflexivity. }
  rewrite Hfold by assumption.
  assert (Hex : existsb (fun cf => str_eqb (snd cf) (lit "summary")) field_map = true).
  { apply existsb_exists. exists (col, lit "summary"); split; auto. }
  rewrite Hex, truthy_strip. cbn [andb].
  destruct (blank (cell r col)); reflexivity.
Qed.

(** C7: a row in which a column is missing, or holds no value, is mapped
    as the same row with the empty string in that column: the cell reads
    as the empty string and the payload is built all the same. *)
Theorem missing_column_is_empty (r : row) (col : str)
    (project_key issue_type : str) (epic_key assignee_account_id : option str) :
  dict_get col r = None \/ dict_get col r = Some None ->
  cell r col = [] /\
  create_issue_payload r project_key issue_type epic_key assignee_account_id
  = create_issue_payload (dict_set col (Some []) r) project_key issue_type
      epic_key assignee_account_id.
Proof.
  intros H. destruct (cell_missing r col H) as [E Hext].
  split; [exact E |].
  unfold create_issue_payload, create_issue_payload_with.
  now rewrite (map_field_ext _ r (dict_set col (Some []) r) Hext).
Qed.

Lemma missing_column_is_empty_witness :
  (dict_get (lit "Summary") row_missing_summary = None \/
   dict_get (lit "Summary") row_missing_summary = Some None) /\
  cell row_missing_summary (lit "Summary") = [] /\
  create_issue_payload row_missing_summary (lit "PROJ") (lit "Task") None None
  = create_issue_payload (dict_set (lit "Summary") (Some []) row_missing_summary)
      (lit "PROJ") (lit "Task") None None.
Proof.
  split.
  - left; reflexivity.
  - apply missing_column_is_empty. left; reflexivity.
Defined.

(** C8: the payload always has a "labels" entry, the labels of the trimmed
    cell of the column mapped to labels; for an empty or white-space-only
    cell it is the empty sequence. *)
Theorem labels_entry (r : row) (project_key issue_type : str)
    (epic_key assignee_account_id : option str) :
  dict_get (lit "labels")
    (fields_of (create_issue_payload r project_key issue_type epic_key
                  assignee_account_id))
  = Some (VList (List.map VStr
                   (parse_labels (Some (strip (cell r (lit "Labels"))))))) /\
  (blank (cell r (lit "Labels")) = true ->
   dict_get (lit "labels")
     (fields_of (create_issue_payload r project_key issue_type epic_key
                   assignee_account_id))
   = Some (VList [])).
Proof.
  assert (E : dict_get (lit "labels")
    (fields_of (create_issue_payload r project_key issue_type epic_key
                  assignee_account_id))
    = Some (VList (List.map VStr
                     (parse_labels (Some (strip (cell r (lit "Labels")))))))).
  { unfold create_issue_payload.
    rewrite payload_entry by lit_neq.
    unfold FIELD_MAP; cbn [fold_left].
    rewrite !map_field_labels.
    change (str_eqb (lit "description") (lit "labels")) with false.
    change (str_eqb (lit "labels") (lit "labels")) with true.
    reflexivity. }
  split; [exact E |].
  intros Hb. rewrite E.
  pose proof (truthy_strip (cell r (lit "Labels"))) as T.
  rewrite Hb in T. unfold parse_labels. now rewrite T.
Qed.

Lemma labels_entry_witness :
  blank (cell row_blank_labels (lit "Labels")) = true /\
  dict_get (lit "labels")
    (fields_of (create_issue_payload row_blank_labels (lit "PROJ") (lit "Task")
                  None None))
  = Some (VList []).
Proof.
  split.
  - reflexivity.
  - apply (proj2 (labels_entry _ (lit "PROJ") (lit "Task") None None)).
    reflexivity.
Defined.

(** A "labels" entry is there for any field map that maps a column to
    labels. *)
Lemma labels_entry_any_map field_map as_list (r : row) (col : str)
    (project_key issue_type : str) (epic_key assignee_account_id : option str) :
  In (col, lit "labels") field_map ->
  exists labels,
    dict_get (lit "labels")
      (fields_of (create_issue_payload_with field_map as_list r project_key
                    issue_type epic_key assignee_account_id))
    = Some (VList (List.map VStr labels)).
Proof.
  intros Hin. rewrite payload_entry by lit_neq.
  generalize [ (lit "project", VDict [(lit "key", VStr project_key)]);
               (lit "issuetype", VDict [(lit "name", VStr issue_type)]) ].
  assert (Hkeep : forall fm fields labels,
    dict_get (lit "labels") fields = Some (VList (List.map VStr labels)) ->
    exists labels',
      dict_get (lit "labels") (fold_left (map_field as_list r) fm fields)
      = Some (VList (List.map VStr labels'))).
  { induction fm as [|[c f] fm IH]; intros fields labels H; cbn [fold_left].
    - now exists labels.
    - destruct (str_eqb f (lit "labels")) eqn:E.
      + eapply IH. rewrite map_field_labels, E. reflexivity.
      + eapply IH. rewrite map_field_labels, E. exact H. }
  induction field_map as [|[c f] fm IH]; intros fields; [destruct Hin |].
  destruct Hin as [Heq|Hin].
  - injection Heq as -> ->. cbn [fold_left].
    eapply Hkeep. rewrite map_field_labels.
    change (str_eqb (lit "labels") (lit "labels")) with true. reflexivity.
  - cbn [fold_left]. now apply IH.
Qed.

(** ** Issue Creator and Batch Runner *)

Section Batch.

Variable W : Type.
Variable http_post : request -> W -> result response * W.

Lemma required_present (os : os_env) key v :
  setting os key v -> required os key = Ok v.
Proof. intros [Hget Hv]. unfold required. now rewrite Hget, Hv. Qed.

Lemma required_absent (os : os_env) key :
  absent os key -> required os key = Err (missing key).
Proof.
  unfold absent, required.
  destruct (dict_get (lit key) (environ os)) as [v|]; simpl; [| reflexivity].
  now intros ->.
Qed.

Lemma setting_or_absent (os : os_env) key :
  (exists v, setting os key v) \/ absent os key.
Proof.
  unfold setting, absent.
  destruct (dict_get (lit key) (environ os)) as [v|]; simpl; [| now right].
  destruct (truthy v) eqn:E; [left; now exists v | now right].
Qed.

Lemma env_required_run (os : os_env) key (st : state W) :
  env_required (lit key) os st = (required os key, st).
Proof.
  unfold env_required, required, bind, getenv, missing, ret, raise.
  destruct (dict_get (lit key) (environ os)) as [v|]; [| reflexivity].
  destruct (truthy v); reflexivity.
Qed.

(** [create_issue] gets the request ready, which fails when a setting is
    missing; it then posts it and turns the answer into its result. *)
Lemma create_issue_unfold (os : os_env) (r : row) (st : state W) :
  create_issue http_post r os st
  = match prepare os r with
    | Err e => (Err e, st)
    | Ok req => respond (stdout st) (http_post req (world st))
    end.
Proof.
  unfold create_issue, jira_base_url, jira_auth, bind, prepare.
  rewrite (env_required_run os "JIRA_BASE_URL").
  destruct (required os "JIRA_BASE_URL") as [b|e]; [| reflexivity].
  unfold ret at 1.
  rewrite (env_required_run os "JIRA_PROJECT_KEY").
  destruct (required os "JIRA_PROJECT_KEY") as [p|e]; [| reflexivity].
  unfold getenv.
  rewrite (env_required_run os "JIRA_EMAIL").
  destruct (required os "JIRA_EMAIL") as [m|e]; [| reflexivity].
  rewrite (env_required_run os "JIRA_API_TOKEN").
  destruct (required os "JIRA_API_TOKEN") as [t|e]; [| reflexivity].
  unfold ret at 1. unfold requests_post, respond, issue_request, issue_url.
  destruct (http_post _ (world st)) as [[resp|e] w]; [| reflexivity].
  unfold read_response. cbn [status_code text resp_json].
  destruct (status_code resp >=? 300)%Z; [reflexivity |].
  destruct (resp_json resp) as [data|]; [| reflexivity].
  unfold ret, getitem.
  destruct data as [| | | | |d]; try reflexivity.
  destruct (dict_get (lit "key") d); reflexivity.
Qed.

(** With its four settings present, [create_issue] posts the request of
    the row. *)
Lemma create_issue_run (os : os_env) (r : row) (st : state W)
    (base_url project_key email token : str) :
  setting os "JIRA_BASE_URL" base_url ->
  setting os "JIRA_PROJECT_KEY" project_key ->
  setting os "JIRA_EMAIL" email ->
  setting os "JIRA_API_TOKEN" token ->
  create_issue http_post r os st
  = respond (stdout st)
      (http_post (issue_request os r base_url project_key email token) (world st)).
Proof.
  intros Hb Hp He Ht. rewrite create_issue_unfold. unfold prepare.
  now rewrite (required_present _ _ _ Hb), (required_present _ _ _ Hp),
    (required_present _ _ _ He), (required_present _ _ _ Ht).
Qed.

(** Without one of its settings, no request is got ready, whatever the
    row. *)
Lemma prepare_missing_setting (os : os_env) :
  absent os "JIRA_BASE_URL" \/ absent os "JIRA_PROJECT_KEY" \/
  absent os "JIRA_EMAIL" \/ absent os "JIRA_API_TOKEN" ->
  exists key, absent os key /\ forall r, prepare os r = Err (missing key).
Proof.
  intros H. unfold prepare.
  destruct (setting_or_absent os "JIRA_BASE_URL") as [[b Hb]|Hb];
    [rewrite (required_present _ _ _ Hb)
    | rewrite (required_absent _ _ Hb); eauto].
  destruct (setting_or_absent os "JIRA_PROJECT_KEY") as [[p Hp]|Hp];
    [rewrite (required_present _ _ _ Hp)
    | rewrite (required_absent _ _ Hp); eauto].
  destruct (setting_or_absent os "JIRA_EMAIL") as [[e He]|He];
    [rewrite (required_present _ _ _ He)
    | rewrite (required_absent _ _ He); eauto].
  destruct (setting_or_absent os "JIRA_API_TOKEN") as [[t Ht]|Ht];
    [rewrite (required_present _ _ _ Ht)
    | rewrite (required_absent _ _ Ht); eauto].
  exfalso.
  assert (Hno : forall key v, setting os key v -> absent os key -> False).
  { intros key v [Hg Hv]. unfold absent. rewrite Hg. simpl. congruence. }
  destruct H as [H|[H|[H|H]]]; eauto.
Qed.

(** [create_issue] then raises for the missing setting and sends
    nothing. *)
Lemma create_issue_missing_setting (os : os_env) :
  absent os "JIRA_BASE_URL" \/ absent os "JIRA_PROJECT_KEY" \/
  absent os "JIRA_EMAIL" \/ absent os "JIRA_API_TOKEN" ->
  exists key, absent os key /\
    forall r (st : state W),
      create_issue http_post r os st = (Err (missing key), st).
Proof.
  intros H. destruct (prepare_missing_setting os H) as [key [Hk Hp]].
  exists key; split; auto. intros r st.
  now rewrite create_issue_unfold, Hp.
Qed.

(** [create_issue] prints nothing, and what it does depends on the state
    through the world only. *)
Lemma create_issue_frame (os : os_env) (r : row) (w : W) (out : list line) :
  create_issue http_post r os {| world := w; stdout := out |}
  = let '(res, st) := create_issue http_post r os {| world := w; stdout := [] |} in
    (res, {| world := world st; stdout := out |}).
Proof.
  rewrite !create_issue_unfold.
  destruct (prepare os r) as [req|e]; [| reflexivity].
  cbn [world stdout]. destruct (http_post req w) as [[resp|x] w']; reflexivity.
Qed.

Lemma reports_from_cons i o outs :
  reports_from i (o :: outs) = report (i, o) :: reports_from (S i) outs.
Proof. reflexivity. Qed.

(** The loop goes through all the rows the reader yields and prints one
    line per row, in order; it then returns the counter plus the number
    of successful rows, or raises what the reader raised. *)
Lemma main_loop_stop (os : os_env) (rows : list row) (stop : option exn) :
  forall i created (st : state W),
    main_loop http_post i created rows stop os st
    = (match stop with
       | None => Ok (created + successes (outcomes http_post os rows (world st)))
       | Some e => Err e
       end,
       {| world := final_world http_post os rows (world st);
          stdout := stdout st
                    ++ reports_from i (outcomes http_post os rows (world st)) |}).
Proof.
  induction rows as [|r rows IH]; intros i created [w out].
  - cbn. unfold ret, raise, successes. cbn. rewrite Nat.add_0_r, app_nil_r.
    now destruct stop.
  - cbn [main_loop outcomes final_world world stdout].
    unfold bind at 1. unfold try_except. unfold bind at 1.
    rewrite create_issue_frame.
    destruct (create_issue http_post r os {| world := w; stdout := [] |})
      as [[key|e] st'].
    + unfold bind, print, ret. cbn [world stdout].
      rewrite IH. cbn [world stdout]. rewrite reports_from_cons.
      unfold successes. cbn [filter is_ok length report fst snd].
      rewrite <- app_assoc. cbn [app].
      replace (i + 1) with (S i) by lia.
      destruct stop; [reflexivity |].
      f_equal. f_equal. lia.
    + unfold bind, print, ret. cbn [world stdout].
      rewrite IH. cbn [world stdout]. rewrite reports_from_cons.
      unfold successes. cbn [filter is_ok length report fst snd].
      rewrite <- app_assoc. cbn [app].
      replace (i + 1) with (S i) by lia.
      reflexivity.
Qed.

Lemma main_loop_run (os : os_env) (rows : list row) :
  forall i created (st : state W),
    main_loop http_post i created rows None os st
    = (Ok (created + successes (outcomes http_post os rows (world st))),
       {| world := final_world http_post os rows (world st);
          stdout := stdout st
                    ++ reports_from i (outcomes http_post os rows (world st)) |}).
Proof. intros i created st. apply (main_loop_stop os rows None). Qed.

Lemma outcomes_length (os : os_env) (rows : list row) :
  forall w, length (outcomes http_post os rows w) = length rows.
Proof.
  induction rows as [|r rows IH]; intros w; cbn [outcomes]; [reflexivity |].
  destruct (create_issue http_post r os _) as [res st]. cbn [length]. now rewrite IH.
Qed.

Lemma print_all_run (os : os_env) (ls : list line) :
  forall st : state W,
    print_all ls os st = (Ok tt, {| world := world st; stdout := stdout st ++ ls |}).
Proof.
  induction ls as [|l ls IH]; intros [w out]; cbn [print_all].
  - unfold ret. cbn. now rewrite app_nil_r.
  - unfold bind, print. rewrite IH. cbn [world stdout]. now rewrite <- app_assoc.
Qed.

Lemma reports_from_nth (outs : list (result pyobj)) :
  forall i k res,
    nth_error outs k = Some res ->
    nth_error (reports_from i outs) k = Some (report (i + k, res)).
Proof.
  induction outs as [|o outs IH]; intros i [|k] res H; try discriminate.
  - injection H as ->. rewrite reports_from_cons, Nat.add_0_r. reflexivity.
  - rewrite reports_from_cons. cbn [nth_error] in *.
    rewrite (IH (S i) k res H). do 3 f_equal. lia.
Qed.

(** Every row fails the same way when a setting of [create_issue] is
    missing, and the server is never called. *)
Lemma outcomes_missing_setting (os : os_env) :
  absent os "JIRA_BASE_URL" \/ absent os "JIRA_PROJECT_KEY" \/
  absent os "JIRA_EMAIL" \/ absent os "JIRA_API_TOKEN" ->
  exists key, absent os key /\
    forall rows w,
      outcomes http_post os rows w = repeat (Err (missing key)) (length rows) /\
      final_world http_post os rows w = w.
Proof.
  intros H. destruct (create_issue_missing_setting os H) as [key [Hk Hc]].
  exists key; split; auto.
  induction rows as [|r rows IH]; intros w; cbn [outcomes final_world].
  - split; reflexivity.
  - rewrite Hc. cbn [world length repeat].
    destruct (IH w) as [-> ->]. split; reflexivity.
Qed.

Lemma files_reads (os : os_env) (path : str) (table : csv_table) :
  files os path = Some table -> disk os path = Reads table None.
Proof.
  unfold files. destruct (disk os path) as [| | |t [e|]]; try discriminate.
  now intros [= ->].
Qed.

(** The run of [main] on a file with a header: the rows the reader
    yields are processed, and the run ends with the summary line, or with
    the exception the reader raised after them. *)
Lemma main_reads (os : os_env) (st : state W) (path : str)
    (table : csv_table) (stop : option exn) :
  setting os "CSV_PATH" path ->
  disk os path = Reads table stop ->
  fieldnames table <> [] ->
  main http_post os st
  = (match stop with None => Ok tt | Some e => Err e end,
     {| world := final_world http_post os (csv_rows table) (world st);
        stdout :=
          stdout st
          ++ LHeadersBanner :: List.map LHeader (fieldnames table)
          ++ reports (outcomes http_post os (csv_rows table) (world st))
          ++ match stop with
             | None =>
                 [LDone (successes
                           (outcomes http_post os (csv_rows table) (world st)))]
             | Some _ => []
             end |}).
Proof.
  intros Hp Hd Hh. unfold main. unfold bind at 1.
  rewrite (env_required_run os "CSV_PATH"), (required_present _ _ _ Hp).
  unfold bind at 1. unfold path_exists. rewrite Hd. cbn [negb].
  unfold bind at 1. unfold open_csv. rewrite Hd.
  unfold bind at 1. unfold get_fieldnames. cbn [reader_fieldnames].
  destruct (fieldnames table) as [|h hs] eqn:Hn; [congruence |].
  unfold bind at 1. unfold print at 1.
  unfold bind at 1. rewrite print_all_run.
  cbn [reader_rows reader_stop].
  unfold bind. rewrite main_loop_stop. unfold print.
  cbn [world stdout Nat.add]. unfold reports.
  destruct stop as [e|].
  - repeat rewrite <- app_assoc. cbn [app]. now rewrite app_nil_r.
  - repeat rewrite <- app_assoc. reflexivity.
Qed.

(** The run of [main] when the file is found, has a header and reads to
    its end. *)
Lemma main_run (os : os_env) (st : state W) (path : str) (table : csv_table) :
  setting os "CSV_PATH" path ->
  files os path = Some table ->
  fieldnames table <> [] ->
  main http_post os st
  = (Ok tt,
     {| world := final_world http_post os (csv_rows table) (world st);
        stdout :=
          stdout st
          ++ LHeadersBanner :: List.map LHeader (fieldnames table)
          ++ reports (outcomes http_post os (csv_rows table) (world st))
          ++ [LDone (successes (outcomes http_post os (csv_rows table) (world st)))] |}).
Proof.
  intros Hp Hf Hh.
  apply (main_reads os st path table None Hp (files_reads os path table Hf) Hh).
Qed.

(** The errors of [main] before the first row are fatal: nothing is
    printed and no row is read. *)
Lemma main_missing_csv_path (os : os_env) (st : state W) :
  absent os "CSV_PATH" ->
  main http_post os st = (Err (missing "CSV_PATH"), st).
Proof.
  intros H. unfold main, bind.
  now rewrite (env_required_run os "CSV_PATH"), (required_absent _ _ H).
Qed.

Lemma main_missing_file (os : os_env) (st : state W) (path : str) :
  setting os "CSV_PATH" path ->
  disk os path = NoFile ->
  main http_post os st = (Err (FileNotFoundError (lit "CSV not found: " ++ path)), st).
Proof.
  intros Hp Hd. unfold main. unfold bind at 1.
  rewrite (env_required_run os "CSV_PATH"), (required_present _ _ _ Hp).
  unfold bind at 1. unfold path_exists. now rewrite Hd.
Qed.

Lemma main_open_fails (os : os_env) (st : state W) (path : str) (e : exn) :
  setting os "CSV_PATH" path ->
  disk os path = OpenFails e ->
  main http_post os st = (Err e, st).
Proof.
  intros Hp Hd. unfold main. unfold bind at 1.
  rewrite (env_required_run os "CSV_PATH"), (required_present _ _ _ Hp).
  unfold bind at 1. unfold path_exists. rewrite Hd. cbn [negb].
  unfold bind at 1. unfold open_csv. now rewrite Hd.
Qed.

Lemma main_header_fails (os : os_env) (st : state W) (path : str) (e : exn) :
  setting os "CSV_PATH" path ->
  disk os path = HeaderFails e ->
  main http_post os st = (Err e, st).
Proof.
  intros Hp Hd. unfold main. unfold bind at 1.
  rewrite (env_required_run os "CSV_PATH"), (required_present _ _ _ Hp).
  unfold bind at 1. unfold path_exists. rewrite Hd. cbn [negb].
  unfold bind at 1. unfold open_csv. rewrite Hd.
  unfold bind at 1. reflexivity.
Qed.

Lemma main_no_headers (os : os_env) (st : state W) (path : str)
    (table : csv_table) (stop : option exn) :
  setting os "CSV_PATH" path ->
  disk os path = Reads table stop ->
  fieldnames table = [] ->
  main http_post os st = (Err (RuntimeError (lit "CSV has no headers.")), st).
Proof.
  intros Hp Hd Hh. unfold main. unfold bind at 1.
  rewrite (env_required_run os "CSV_PATH"), (required_present _ _ _ Hp).
  unfold bind at 1. unfold path_exists. rewrite Hd. cbn [negb].
  unfold bind at 1. unfold open_csv. rewrite Hd.
  unfold bind at 1. unfold get_fieldnames. cbn [reader_fieldnames].
  now rewrite Hh.
Qed.

(** C4: the rows are processed in order, each in the world the rows
    before it left; every row has an outcome, whether the rows before it
    failed or not; the line of the row at position k+1 reports its
    outcome with that position, one line per row; and the final line
    gives the number of successful rows. *)
Theorem batch_runner_reports_every_row
    (os : os_env) (st : state W) (path : str) (table : csv_table) :
  setting os "CSV_PATH" path ->
  files os path = Some table ->
  fieldnames table <> [] ->
  let outs := outcomes http_post os (csv_rows table) (world st) in
  main http_post os st
  = (Ok tt,
     {| world := final_world http_post os (csv_rows table) (world st);
        stdout :=
          stdout st
          ++ LHeadersBanner :: List.map LHeader (fieldnames table)
          ++ reports outs ++ [LDone (successes outs)] |}) /\
  length outs = length (csv_rows table) /\
  length (reports outs) = length (csv_rows table) /\
  (forall k res,
      nth_error outs k = Some res ->
      nth_error (reports outs) k = Some (report (S k, res))) /\
  successes outs = length (List.filter is_ok outs) /\
  successes outs + length (List.filter (fun o => negb (is_ok o)) outs)
  = length (csv_rows table).
Proof.
  intros Hp Hf Hh outs.
  split; [now apply (main_run os st path table) |].
  assert (Hlen : length outs = length (csv_rows table))
    by apply outcomes_length.
  split; [exact Hlen |].
  split.
  - unfold reports, reports_from.
    now rewrite length_map, length_combine, length_seq, Nat.min_id.
  - split; [| split; [reflexivity |]].
    + intros k res H. apply (reports_from_nth outs 1 k res H).
    + unfold successes. now rewrite filter_length.
Qed.



End Batch.

(** ** Base URL *)

Lemma rstrip_slashes (b : str) (n : nat) :
  rstrip (lit "/") (b ++ repeat SLASH n) = rstrip (lit "/") b.
Proof.
  unfold rstrip, rstrip_by. f_equal.
  induction n as [|n IH]; [now rewrite app_nil_r |].
  rewrite <- IH.
  change (repeat SLASH (S n)) with (SLASH :: repeat SLASH n).
  rewrite repeat_cons, app_assoc, rev_app_distr. reflexivity.
Qed.

Lemma rstrip_no_trailing_slash (b t : str) :
  rstrip (lit "/") b <> t ++ [SLASH].
Proof.
  unfold rstrip, rstrip_by. intros H.
  apply (f_equal (@rev _)) in H.
  rewrite rev_involutive, rev_app_distr in H. simpl in H.
  apply dropwhile_head in H. discriminate H.
Qed.

Lemma all_slashes (a : str) :
  forallb (fun c => existsb (N.eqb c) (lit "/")) a = true ->
  a = repeat SLASH (length a).
Proof.
  induction a as [|c a IH]; [reflexivity |].
  cbn [forallb]. intros H. apply andb_prop in H as [Hc Ha].
  cbn [length repeat]. rewrite <- (IH Ha).
  change (existsb (N.eqb c) (lit "/")) with ((c =? SLASH)%N || false) in Hc.
  rewrite orb_false_r in Hc. apply N.eqb_eq in Hc. now subst c.
Qed.

(** What [rstrip] removes is a run of slashes at the end, and nothing
    else. *)
Lemma rstrip_removes_slashes (v : str) :
  exists n : nat, v = rstrip (lit "/") v ++ repeat SLASH n.
Proof.
  unfold rstrip, rstrip_by.
  destruct (dropwhile_decomp (fun c => existsb (N.eqb c) (lit "/")) (rev v))
    as [a [Ha Hp]].
  exists (length a).
  remember (dropwhile (fun c => existsb (N.eqb c) (lit "/")) (rev v)) as d.
  assert (E : v = rev (a ++ d)) by (rewrite <- Ha; symmetry; apply rev_involutive).
  rewrite E at 1. rewrite rev_app_distr. f_equal.
  rewrite (all_slashes a Hp) at 1. apply rev_repeat.
Qed.

Section BaseUrl.

Variable W : Type.
Variable http_post : request -> W -> result response * W.

(** C10: the trailing slashes of the configured base URL are stripped
    before the URL is composed: the stripped base is the configured value
    without the run of slashes at its end, and does not end with a slash;
    base URLs that differ in their trailing slashes only give the same
    issue URL, the stripped base followed by "/rest/api/3/issue"; this is
    the URL [create_issue] posts to.  So "https://example.atlassian.net//"
    gives "https://example.atlassian.net/rest/api/3/issue". *)
Theorem base_url_trailing_slashes :
  (forall (b : str) (n : nat), issue_url (b ++ repeat SLASH n) = issue_url b) /\
  (forall b : str,
      issue_url b = rstrip (lit "/") b ++ lit "/rest/api/3/issue" /\
      (forall t, rstrip (lit "/") b <> t ++ [SLASH]) /\
      (exists n : nat, b = rstrip (lit "/") b ++ repeat SLASH n)) /\
  (forall (b : str) (n : nat),
      (forall t, b <> t ++ [SLASH]) ->
      rstrip (lit "/") (b ++ repeat SLASH n) = b /\
      issue_url (b ++ repeat SLASH n) = b ++ lit "/rest/api/3/issue") /\
  issue_url (lit "https://example.atlassian.net//")
  = lit "https://example.atlassian.net/rest/api/3/issue" /\
  (forall (os : os_env) (v : str) (st : state W),
      setting os "JIRA_BASE_URL" v ->
      jira_base_url os st = (Ok (rstrip (lit "/") v), st)) /\
  (forall (os : os_env) (r : row) (st : state W)
          (base_url project_key email token : str),
      setting os "JIRA_BASE_URL" base_url ->
      setting os "JIRA_PROJECT_KEY" project_key ->
      setting os "JIRA_EMAIL" email ->
      setting os "JIRA_API_TOKEN" token ->
      create_issue http_post r os st
      = respond (stdout st)
          (http_post (issue_request os r base_url project_key email token)
             (world st)) /\
      url (issue_request os r base_url project_key email token)
      = issue_url base_url).
Proof.
  split; [| split; [| split; [| split; [| split]]]].
  - intros b n. unfold issue_url. now rewrite rstrip_slashes.
  - intros b. split; [reflexivity |].
    split; [apply rstrip_no_trailing_slash | apply rstrip_removes_slashes].
  - intros b n Hb.
    assert (E : rstrip (lit "/") b = b).
    { destruct (rstrip_removes_slashes b) as [[|k] Hk].
      - rewrite app_nil_r in Hk. now symmetry.
      - exfalso. apply (Hb (rstrip (lit "/") b ++ repeat SLASH k)).
        rewrite <- app_assoc, <- repeat_cons. exact Hk. }
    unfold issue_url. rewrite rstrip_slashes, E. split; reflexivity.
  - reflexivity.
  - intros os v st Hv. unfold jira_base_url, bind.
    now rewrite (env_required_run W os "JIRA_BASE_URL"), (required_present _ _ _ Hv).
  - intros os r st b p e t Hb Hp He Ht.
    split; [now apply create_issue_run | reflexivity].
Qed.

End BaseUrl.

(** ** Missing settings *)

Lemma reports_from_failures (e : exn) (n : nat) :
  forall i,
    reports_from i (repeat (Err e) n)
    = List.map (fun k => LError k e) (seq i n).
Proof.
  induction n as [|n IH]; intros i; [reflexivity |].
  cbn [repeat seq map]. rewrite reports_from_cons, IH. reflexivity.
Qed.

Lemma successes_failures (e : exn) (n : nat) :
  successes (repeat (Err e) n) = 0.
Proof. induction n as [|n IH]; [reflexivity | exact IH]. Qed.

(** When the file is found but a setting of [create_issue] is missing,
    the run is not aborted: every row is tried and reported as an error,
    no request is sent, and the run ends with a count of zero. *)
Lemma main_missing_setting (W : Type)
    (http_post : request -> W -> result response * W)
    (os : os_env) (st : state W) (path : str) (table : csv_table) :
  setting os "CSV_PATH" path ->
  files os path = Some table ->
  fieldnames table <> [] ->
  absent os "JIRA_BASE_URL" \/ absent os "JIRA_PROJECT_KEY" \/
  absent os "JIRA_EMAIL" \/ absent os "JIRA_API_TOKEN" ->
  exists key, absent os key /\
    main http_post os st
    = (Ok tt,
       {| world := world st;
          stdout :=
            stdout st
            ++ LHeadersBanner :: List.map LHeader (fieldnames table)
            ++ List.map (fun k => LError k (missing key))
                 (seq 1 (length (csv_rows table)))
            ++ [LDone 0] |}).
Proof.
  intros Hp Hf Hh Habs.
  destruct (outcomes_missing_setting W http_post os Habs) as [key [Hk Hout]].
  exists key; split; auto.
  rewrite (main_run W http_post os st path table Hp Hf Hh).
  destruct (Hout (csv_rows table) (world st)) as [-> ->].
  unfold reports. now rewrite reports_from_failures, successes_failures.
Qed.

(** C1, the run the claim excludes: with the input file in place and the
    base URL setting absent, [main] does not abort; it tries both rows,
    prints an error line for each, sends no request (the scripted reply is
    still unused), and ends normally with a count of zero. *)
Theorem missing_base_url_is_not_fatal :
  absent no_base_url_os "JIRA_BASE_URL" /\
  main scripted no_base_url_os (start [Ok resp_201])
  = (Ok tt,
     {| world := [Ok resp_201];
        stdout :=
          [ LHeadersBanner;
            LHeader (lit "Summary"); LHeader (lit "Labels");
            LHeader (lit "Description");
            LError 1 (missing "JIRA_BASE_URL");
            LError 2 (missing "JIRA_BASE_URL");
            LDone 0 ] |}).
Proof. split; reflexivity. Qed.

(** ** Runs of the example *)

(** The end-to-end example: a 201 answer for the first row and a 400
    answer for the second. *)
Lemma batch_runner_reports_every_row_witness :
  setting example_os "CSV_PATH" (lit "issues.csv") /\
  files example_os (lit "issues.csv") = Some example_table /\
  fieldnames example_table <> [] /\
  stdout (snd (main scripted example_os (start [Ok resp_201; Ok resp_400])))
  = [ LHeadersBanner;
      LHeader (lit "Summary"); LHeader (lit "Labels");
      LHeader (lit "Description");
      LCreated 1 (VStr (lit "PROJ-1"));
      LError 2 (RuntimeError (lit "400 bad request"));
      LDone 1 ].
Proof.
  assert (H1 : setting example_os "CSV_PATH" (lit "issues.csv"))
    by (split; reflexivity).
  assert (H2 : files example_os (lit "issues.csv") = Some example_table)
    by reflexivity.
  assert (H3 : fieldnames example_table <> []) by discriminate.
  split; [exact H1 |]. split; [exact H2 |]. split; [exact H3 |].
  rewrite (proj1 (batch_runner_reports_every_row _ scripted example_os
                    (start [Ok resp_201; Ok resp_400]) _ _ H1 H2 H3)).
  reflexivity.
Defined.



Lemma base_url_trailing_slashes_witness :
  setting example_os "JIRA_BASE_URL" (lit "https://example.atlassian.net/") /\
  setting example_os "JIRA_PROJECT_KEY" (lit "PROJ") /\
  setting example_os "JIRA_EMAIL" (lit "me@example.com") /\
  setting example_os "JIRA_API_TOKEN" (lit "secret") /\
  url (issue_request example_os first_row
         (lit "https://example.atlassian.net/") (lit "PROJ")
         (lit "me@example.com") (lit "secret"))
  = lit "https://example.atlassian.net/rest/api/3/issue" /\
  jira_base_url example_os (start [])
  = (Ok (lit "https://example.atlassian.net"), start []) /\
  issue_url (lit "https://example.atlassian.net" ++ repeat SLASH 3)
  = issue_url (lit "https://example.atlassian.net").
Proof.
  assert (Hb : setting example_os "JIRA_BASE_URL" (lit "https://example.atlassian.net/"))
    by (split; reflexivity).
  assert (Hp : setting example_os "JIRA_PROJECT_KEY" (lit "PROJ"))
    by (split; reflexivity).
  assert (He : setting example_os "JIRA_EMAIL" (lit "me@example.com"))
    by (split; reflexivity).
  assert (Ht : setting example_os "JIRA_API_TOKEN" (lit "secret"))
    by (split; reflexivity).
  pose proof (base_url_trailing_slashes (list (result response)) scripted)
    as [Hsame [_ [_ [_ [Hbase Hpost]]]]].
  split; [exact Hb |]. split; [exact Hp |]. split; [exact He |].
  split; [exact Ht |]. split; [| split].
  - rewrite (proj2 (Hpost example_os first_row (start []) _ _ _ _ Hb Hp He Ht)).
    reflexivity.
  - rewrite (Hbase example_os _ (start []) Hb). reflexivity.
  - apply Hsame.
Defined.

(** * Further properties *)

(** ** Document Converter: shape and round trip *)

Lemma lines_of_no_linebreak (s : str) (ls : list str) :
  lines_of s ls -> Forall (fun l => no_linebreak l = true) ls.
Proof. induction 1; constructor; auto. Qed.

Lemma paragraph_texts_of_lines (ls : list str) :
  flat_map paragraph_text (List.map paragraph ls) = ls.
Proof.
  induction ls as [|l ls IH]; [reflexivity |].
  cbn [map flat_map]. rewrite IH. reflexivity.
Qed.

Lemma to_adf_doc_texts (text : str) :
  paragraph_texts (to_adf_doc (Some text))
  = if truthy text then splitlines text else [[]].
Proof.
  unfold paragraph_texts. rewrite to_adf_doc_paragraphs.
  apply paragraph_texts_of_lines.
Qed.

(** The document always has a paragraph, and no paragraph text holds a
    line boundary: the text nodes are single lines. *)
Theorem to_adf_doc_single_line_paragraphs (text : str) :
  paragraphs (to_adf_doc (Some text)) <> [] /\
  length (paragraph_texts (to_adf_doc (Some text)))
  = length (paragraphs (to_adf_doc (Some text))) /\
  Forall (fun l => no_linebreak l = true)
    (paragraph_texts (to_adf_doc (Some text))).
Proof.
  split; [| split].
  - rewrite to_adf_doc_paragraphs. destruct text as [|c text]; [discriminate |].
    cbn [truthy]. intros E. apply map_eq_nil in E.
    now apply splitlines_nonempty in E.
  - now rewrite to_adf_doc_texts, to_adf_doc_paragraphs, length_map.
  - rewrite to_adf_doc_texts. destruct text as [|c text].
    + repeat constructor.
    + cbn [truthy]. apply (lines_of_no_linebreak (c :: text)), splitlines_spec.
Qed.

Lemma join_splitlines_from (s : str) : forall cur,
  only_lf s = true ->
  ends_open (truthy cur) s = true ->
  join LF (splitlines_from cur s) = rev cur ++ s.
Proof.
  induction s as [|c rest IH]; intros cur Hlf Hopen.
  - destruct cur as [|x cur]; [discriminate |].
    cbn [splitlines_from join]. reflexivity.
  - cbn [only_lf forallb] in Hlf. apply andb_prop in Hlf as [Hc Hlf].
    cbn [splitlines_from]. cbn [ends_open] in Hopen.
    destruct (is_linebreak c) eqn:Hb; cbn [negb orb] in Hc, Hopen.
    + apply N.eqb_eq in Hc; subst c.
      destruct rest as [|c' rest']; [discriminate |].
      change ((LF =? CR)%N && (c' =? LF)%N) with false. cbv iota.
      cbn [join].
      destruct (splitlines_from [] (c' :: rest')) as [|l ls] eqn:E.
      * exfalso. apply (splitlines_nonempty (c' :: rest')); [discriminate | exact E].
      * rewrite <- E. rewrite (IH [] Hlf Hopen). reflexivity.
    + rewrite (IH (c :: cur) Hlf Hopen). cbn [rev]. now rewrite <- app_assoc.
Qed.

(** Round trip: for a text whose line boundaries are all "\n" and which
    does not end with one, the paragraph texts joined with "\n" are the
    text. *)
Theorem to_adf_doc_round_trip (text : str) :
  only_lf text = true ->
  ends_with_linebreak text = false ->
  join LF (paragraph_texts (to_adf_doc (Some text))) = text.
Proof.
  intros Hlf Hend. rewrite to_adf_doc_texts.
  destruct text as [|c text]; [reflexivity |].
  cbn [truthy]. unfold ends_with_linebreak in Hend.
  apply negb_false_iff in Hend.
  exact (join_splitlines_from (c :: text) [] Hlf Hend).
Qed.

Lemma to_adf_doc_round_trip_witness :
  only_lf (lit "line1" ++ [LF; LF] ++ lit "line3") = true /\
  ends_with_linebreak (lit "line1" ++ [LF; LF] ++ lit "line3") = false /\
  join LF (paragraph_texts
             (to_adf_doc (Some (lit "line1" ++ [LF; LF] ++ lit "line3"))))
  = lit "line1" ++ [LF; LF] ++ lit "line3".
Proof.
  split; [reflexivity |]. split; [reflexivity |].
  apply to_adf_doc_round_trip; reflexivity.
Defined.

(** ** Labels: clean pieces, normal form, emptiness *)

(** No label is empty, holds a comma, or starts or ends with white
    space. *)
Theorem parse_labels_clean (s : str) :
  Forall (fun l => l <> [] /\ no_char COMMA l = true /\
                   (forall c r, l = c :: r -> is_space c = false) /\
                   (forall r c, l = r ++ [c] -> is_space c = false))
         (parse_labels (Some s)).
Proof. exact (parse_labels_pieces s). Qed.

Lemma parse_labels_as_spec (s : str) :
  parse_labels (Some s) = parse_labels_spec s.
Proof.
  unfold parse_labels, parse_labels_spec.
  destruct s as [|c s]; [reflexivity |].
  cbn [truthy negb]. apply map_filter_swap.
Qed.

Lemma split_from_app_no_sep sep (p : str) : forall cur t,
  no_char sep p = true ->
  split_from sep cur (p ++ t) = split_from sep (rev p ++ cur) t.
Proof.
  induction p as [|x p IH]; intros cur t Hp; [reflexivity |].
  unfold no_char in Hp; cbn [forallb] in Hp.
  apply andb_prop in Hp as [Hx Hp]. apply negb_true_iff in Hx.
  cbn [app split_from]. rewrite Hx, (IH (x :: cur) t Hp).
  cbn [rev]. now rewrite <- app_assoc.
Qed.

Lemma split_from_of_join sep (ls : list str) : forall cur,
  ls <> [] ->
  Forall (fun p => no_char sep p = true) ls ->
  split_from sep cur (join sep ls) = (rev cur ++ hd [] ls) :: tl ls.
Proof.
  induction ls as [|p ls IH]; intros cur Hne Hall; [congruence |].
  inversion Hall as [|? ? Hp Hls]; subst.
  cbn [join hd tl]. rewrite (split_from_app_no_sep sep p cur _ Hp).
  destruct ls as [|q ls].
  - cbn [split_from]. now rewrite rev_app_distr, rev_involutive.
  - cbn [split_from]. rewrite N.eqb_refl.
    rewrite rev_app_distr, rev_involutive.
    rewrite (IH [] ltac:(discriminate) Hls). reflexivity.
Qed.

(** [split] undoes [join] on pieces without a separator. *)
Lemma split_of_join sep (ls : list str) :
  ls <> [] ->
  Forall (fun p => no_char sep p = true) ls ->
  split sep (join sep ls) = ls.
Proof.
  intros Hne Hall. unfold split. rewrite (split_from_of_join sep ls [] Hne Hall).
  destruct ls; [congruence | reflexivity].
Qed.

Lemma strip_trimmed (l : str) :
  (forall c r, l = c :: r -> is_space c = false) ->
  (forall r c, l = r ++ [c] -> is_space c = false) ->
  strip l = l.
Proof.
  intros Hfirst Hlast. unfold strip, lstrip_by, rstrip_by.
  assert (E1 : dropwhile is_space l = l).
  { destruct l as [|c r]; [reflexivity |].
    cbn [dropwhile]. now rewrite (Hfirst c r eq_refl). }
  rewrite E1.
  assert (E2 : dropwhile is_space (rev l) = rev l).
  { destruct (rev l) as [|c r] eqn:E; [reflexivity |].
    cbn [dropwhile]. rewrite (Hlast (rev r) c); [reflexivity |].
    apply (f_equal (@rev _)) in E. rewrite rev_involutive in E. exact E. }
  rewrite E2. apply rev_involutive.
Qed.

(** Normal form: the labels joined with commas parse to the same
    labels. *)
Theorem parse_labels_round_trip (s : str) :
  parse_labels (Some (join COMMA (parse_labels (Some s))))
  = parse_labels (Some s).
Proof.
  pose proof (parse_labels_pieces s) as Hclean.
  destruct (parse_labels (Some s)) as [|l ls] eqn:E; [reflexivity |].
  rewrite parse_labels_as_spec. unfold parse_labels_spec.
  rewrite split_of_join.
  - clear E. induction Hclean as [|x xs [Hne [_ [Hf Hl]]] _ IH]; [reflexivity |].
    cbn [map filter]. rewrite (strip_trimmed x Hf Hl).
    destruct x; [congruence |]. cbn [truthy]. now rewrite IH.
  - discriminate.
  - eapply Forall_impl; [| exact Hclean]. intros a [_ [Ha _]]. exact Ha.
Qed.

Lemma blank_split_from sep (s : str) : forall cur,
  forallb blank (split_from sep cur s)
  = blank cur && forallb (fun c => is_space c || (c =? sep)%N) s.
Proof.
  induction s as [|c rest IH]; intros cur; cbn [split_from forallb].
  - unfold blank. now rewrite forallb_rev.
  - destruct (c =? sep)%N eqn:E.
    + cbn [forallb]. rewrite IH. unfold blank at 1. rewrite forallb_rev.
      cbn. now rewrite orb_true_r.
    + rewrite IH. unfold blank; cbn [forallb].
      rewrite orb_false_r.
      destruct (is_space c), (forallb is_space cur); reflexivity.
Qed.

Lemma no_labels_iff_blank (ls : list str) :
  List.filter truthy (List.map strip ls) = [] <-> forallb blank ls = true.
Proof.
  induction ls as [|l ls IH]; cbn [map filter forallb]; [tauto |].
  rewrite truthy_strip. destruct (blank l); cbn [negb andb]; [exact IH |].
  split; discriminate.
Qed.

(** There are no labels exactly when the value is made of white space
    and commas. *)
Theorem parse_labels_empty_iff (s : str) :
  parse_labels (Some s) = [] <-> blank_or_comma s = true.
Proof.
  rewrite parse_labels_as_spec. unfold parse_labels_spec.
  rewrite no_labels_iff_blank. unfold split, blank_or_comma.
  rewrite blank_split_from. reflexivity.
Qed.

(** ** Field Mapper: what the payload depends on and what it holds *)

Lemma map_field_trimmed as_list (r1 r2 : row) fields c f :
  strip (cell r1 c) = strip (cell r2 c) ->
  map_field as_list r1 fields (c, f) = map_field as_list r2 fields (c, f).
Proof. intros H. unfold map_field. now rewrite H. Qed.

(** The payload is a function of the trimmed cells of the mapped columns:
    rows that agree on them give the same payload, whatever their other
    columns and the white space around the cells. *)
Theorem payload_of_trimmed_cells field_map as_list (r1 r2 : row)
    (project_key issue_type : str) (epic_key assignee_account_id : option str) :
  (forall c f, In (c, f) field_map -> strip (cell r1 c) = strip (cell r2 c)) ->
  create_issue_payload_with field_map as_list r1 project_key issue_type
    epic_key assignee_account_id
  = create_issue_payload_with field_map as_list r2 project_key issue_type
      epic_key assignee_account_id.
Proof.
  intros H. unfold create_issue_payload_with.
  assert (E : forall fm fields,
             (forall c f, In (c, f) fm -> strip (cell r1 c) = strip (cell r2 c)) ->
             fold_left (map_field as_list r1) fm fields
             = fold_left (map_field as_list r2) fm fields).
  { induction fm as [|[c f] fm IH]; intros fields Hfm; cbn [fold_left];
      [reflexivity |].
    rewrite (map_field_trimmed as_list r1 r2 fields c f (Hfm c f (or_introl eq_refl))).
    apply IH. intros c' f' Hin. apply (Hfm c' f'). now right. }
  now rewrite (E field_map _ H).
Qed.

Lemma payload_of_trimmed_cells_witness :
  (forall c f, In (c, f) FIELD_MAP ->
               strip (cell padded_row c) = strip (cell first_row c)) /\
  create_issue_payload_with FIELD_MAP CUSTOM_FIELD_AS_LIST padded_row
    (lit "PROJ") (lit "Task") None None
  = create_issue_payload_with FIELD_MAP CUSTOM_FIELD_AS_LIST first_row
      (lit "PROJ") (lit "Task") None None.
Proof.
  assert (H : forall c f, In (c, f) FIELD_MAP ->
                          strip (cell padded_row c) = strip (cell first_row c)).
  { intros c f [E|[E|[E|[]]]]; injection E as <- _; reflexivity. }
  split; [exact H |].
  apply payload_of_trimmed_cells. exact H.
Defined.

(** What one step of the mapping loop does to an entry other than
    "summary", "labels" and "description". *)
Lemma map_field_other as_list (r : row) fields c f (k : str) :
  k <> lit "summary" -> k <> lit "labels" -> k <> lit "description" ->
  dict_get k (map_field as_list r fields (c, f))
  = if str_eqb f k
    then Some (other_value as_list k (strip (cell r c)))
    else dict_get k fields.
Proof.
  intros Hs Hl Hd. unfold map_field, other_value.
  set (val := strip (cell r c)).
  destruct (str_eqb_spec f k) as [->|Hne].
  - unfold mem_str at 1; cbn [existsb]. rewrite (str_eqb_neq _ _ Hs).
    rewrite andb_false_r. cbn [orb].
    rewrite (str_eqb_neq _ _ Hl), (str_eqb_neq _ _ Hd).
    destruct (startswith (lit "customfield_") k);
      [destruct (mem_str k as_list) |]; apply dict_get_set_eq.
  - destruct (negb (truthy val) && mem_str f [lit "summary"]); [reflexivity |].
    destruct (str_eqb_spec f (lit "labels")) as [->|_];
      [apply dict_get_set_neq; congruence |].
    destruct (str_eqb_spec f (lit "description")) as [->|_];
      [apply dict_get_set_neq; congruence |].
    destruct (startswith (lit "customfield_") f);
      [destruct (mem_str f as_list) |];
      apply dict_get_set_neq; congruence.
Qed.

Lemma map_field_description as_list (r : row) fields c f :
  dict_get (lit "description") (map_field as_list r fields (c, f))
  = if str_eqb f (lit "description")
    then Some (to_adf_doc (Some (strip (cell r c))))
    else dict_get (lit "description") fields.
Proof.
  unfold map_field. set (val := strip (cell r c)).
  destruct (str_eqb_spec f (lit "description")) as [->|Hne].
  - change (mem_str (lit "description") [lit "summary"]) with false.
    rewrite andb_false_r.
    change (str_eqb (lit "description") (lit "labels")) with false.
    cbv iota. apply dict_get_set_eq.
  - destruct (negb (truthy val) && mem_str f [lit "summary"]); [reflexivity |].
    destruct (str_eqb_spec f (lit "labels")) as [->|_];
      [apply dict_get_set_neq; lit_neq |].
    destruct (startswith (lit "customfield_") f);
      [destruct (mem_str f as_list) |];
      apply dict_get_set_neq; congruence.
Qed.

(** An entry other than "summary", "labels" and "description" after the
    whole loop, when one column at most is mapped to it. *)
Lemma fold_other as_list (r : row) (k col : str) :
  k <> lit "summary" -> k <> lit "labels" -> k <> lit "description" ->
  forall fm fields,
    (forall c, In (c, k) fm -> c = col) ->
    dict_get k (fold_left (map_field as_list r) fm fields)
    = if existsb (fun cf => str_eqb (snd cf) k) fm
      then Some (other_value as_list k (strip (cell r col)))
      else dict_get k fields.
Proof.
  intros Hs Hl Hd.
  induction fm as [|[c f] fm IH]; intros fields Hu;
    cbn [fold_left existsb snd]; [reflexivity |].
  rewrite IH by (intros c' Hc'; apply Hu; now right).
  rewrite (map_field_other as_list r fields c f k Hs Hl Hd).
  destruct (str_eqb_spec f k) as [->|Hne]; cbn [orb].
  - rewrite (Hu c (or_introl eq_refl)). now destruct (existsb _ fm).
  - reflexivity.
Qed.

Lemma customfield_not_builtin (f : str) :
  startswith (lit "customfield_") f = true ->
  f <> lit "summary" /\ f <> lit "labels" /\ f <> lit "description" /\
  f <> lit "assignee" /\ f <> lit "parent".
Proof.
  intros H. repeat split; intros ->; vm_compute in H; discriminate H.
Qed.

(** A custom field mapped from one column is sent as the trimmed cell,
    empty or not; when the field is declared list-valued it is sent as
    the one-element list of the trimmed cell, or the empty list for a
    blank cell. *)
Theorem custom_field_entry field_map as_list (r : row) (col f : str)
    (project_key issue_type : str) (epic_key assignee_account_id : option str) :
  startswith (lit "customfield_") f = true ->
  In (col, f) field_map ->
  (forall c, In (c, f) field_map -> c = col) ->
  dict_get f
    (fields_of (create_issue_payload_with field_map as_list r project_key
                  issue_type epic_key assignee_account_id))
  = Some (if mem_str f as_list
          then VList (if blank (cell r col) then []
                      else [VStr (strip (cell r col))])
          else VStr (strip (cell r col))).
Proof.
  intros Hcf Hin Hu.
  destruct (customfield_not_builtin f Hcf) as [Hs [Hl [Hd [Ha Hp]]]].
  rewrite payload_entry by assumption.
  rewrite (fold_other as_list r f col Hs Hl Hd field_map _ Hu).
  assert (Hex : existsb (fun cf => str_eqb (snd cf) f) field_map = true).
  { apply existsb_exists. exists (col, f); split; auto. apply str_eqb_refl. }
  rewrite Hex. unfold other_value. rewrite Hcf, truthy_strip.
  now destruct (blank (cell r col)).
Qed.

Lemma custom_field_entry_witness :
  startswith (lit "customfield_") (lit "customfield_10010") = true /\
  In (lit "Client", lit "customfield_10010") custom_map /\
  (forall c, In (c, lit "customfield_10010") custom_map -> c = lit "Client") /\
  dict_get (lit "customfield_10010")
    (fields_of (create_issue_payload_with custom_map custom_as_list custom_row
                  (lit "PROJ") (lit "Task") None None))
  = Some (VList [VStr (lit "ACME")]).
Proof.
  assert (Hu : forall c, In (c, lit "customfield_10010") custom_map -> c = lit "Client").
  { intros c [E|[E|[E|[E|[]]]]]; vm_compute in E; now inversion E. }
  assert (Hin : In (lit "Client", lit "customfield_10010") custom_map)
    by (right; left; reflexivity).
  split; [reflexivity |]. split; [exact Hin |]. split; [exact Hu |].
  rewrite (custom_field_entry custom_map custom_as_list custom_row
             (lit "Client") (lit "customfield_10010") (lit "PROJ") (lit "Task")
             None None eq_refl Hin Hu).
  reflexivity.
Defined.

(** A field that is not built in, not custom and not overridden is sent
    as the trimmed cell of its column, also when that is empty. *)
Theorem plain_field_entry field_map as_list (r : row) (col f : str)
    (project_key issue_type : str) (epic_key assignee_account_id : option str) :
  startswith (lit "customfield_") f = false ->
  f <> lit "summary" -> f <> lit "labels" -> f <> lit "description" ->
  f <> lit "assignee" -> f <> lit "parent" ->
  In (col, f) field_map ->
  (forall c, In (c, f) field_map -> c = col) ->
  dict_get f
    (fields_of (create_issue_payload_with field_map as_list r project_key
                  issue_type epic_key assignee_account_id))
  = Some (VStr (strip (cell r col))).
Proof.
  intros Hcf Hs Hl Hd Ha Hp Hin Hu.
  rewrite payload_entry by assumption.
  rewrite (fold_other as_list r f col Hs Hl Hd field_map _ Hu).
  assert (Hex : existsb (fun cf => str_eqb (snd cf) f) field_map = true).
  { apply existsb_exists. exists (col, f); split; auto. apply str_eqb_refl. }
  rewrite Hex. unfold other_value. now rewrite Hcf.
Qed.

Lemma plain_field_entry_witness :
  startswith (lit "customfield_") (lit "environment") = false /\
  lit "environment" <> lit "summary" /\ lit "environment" <> lit "labels" /\
  lit "environment" <> lit "description" /\
  lit "environment" <> lit "assignee" /\ lit "environment" <> lit "parent" /\
  In (lit "Env", lit "environment") custom_map /\
  (forall c, In (c, lit "environment") custom_map -> c = lit "Env") /\
  dict_get (lit "environment")
    (fields_of (create_issue_payload_with custom_map custom_as_list custom_row
                  (lit "PROJ") (lit "Task") None None))
  = Some (VStr []).
Proof.
  assert (Hu : forall c, In (c, lit "environment") custom_map -> c = lit "Env").
  { intros c [E|[E|[E|[E|[]]]]]; vm_compute in E; now inversion E. }
  assert (Hin : In (lit "Env", lit "environment") custom_map)
    by (do 3 right; left; reflexivity).
  assert (H1 : lit "environment" <> lit "summary") by lit_neq.
  assert (H2 : lit "environment" <> lit "labels") by lit_neq.
  assert (H3 : lit "environment" <> lit "description") by lit_neq.
  assert (H4 : lit "environment" <> lit "assignee") by lit_neq.
  assert (H5 : lit "environment" <> lit "parent") by lit_neq.
  split; [reflexivity |]. split; [exact H1 |]. split; [exact H2 |].
  split; [exact H3 |]. split; [exact H4 |]. split; [exact H5 |].
  split; [exact Hin |]. split; [exact Hu |].
  rewrite (plain_field_entry custom_map custom_as_list custom_row
             (lit "Env") (lit "environment") (lit "PROJ") (lit "Task")
             None None eq_refl H1 H2 H3 H4 H5 Hin Hu).
  reflexivity.
Defined.

Lemma linebreak_is_space (c : char) :
  is_linebreak c = true -> is_space c = true.
Proof.
  unfold is_linebreak, is_space.
  rewrite !orb_true_iff, !andb_true_iff, !N.leb_le, !N.eqb_eq. lia.
Qed.

Lemma ends_open_last (s : str) (c : char) : forall b,
  ends_open b (s ++ [c]) = negb (is_linebreak c).
Proof. induction s as [|x s IH]; intros b; [reflexivity | apply IH]. Qed.

(** A trimmed text has one more line than it has terminators. *)
Lemma stripped_line_count (s : str) :
  length (paragraphs (to_adf_doc (Some (strip s))))
  = count_linebreaks (strip s) + 1.
Proof.
  rewrite to_adf_doc_length.
  destruct (strip s) as [|x v] eqn:E; [reflexivity |].
  cbn [truthy]. unfold number_of_lines. f_equal.
  destruct (exists_last (l := x :: v) ltac:(discriminate)) as [r [c Hrc]].
  rewrite Hrc, ends_open_last.
  rewrite Hrc in E. apply strip_last in E.
  destruct (is_linebreak c) eqn:Hb; [| reflexivity].
  apply linebreak_is_space in Hb. congruence.
Qed.

(** The payload always has a "description" entry, the document of the
    trimmed cell; it has one paragraph more than the trimmed cell has
    line terminators, so a blank cell gives one empty paragraph. *)
Theorem description_entry (r : row) (project_key issue_type : str)
    (epic_key assignee_account_id : option str) :
  dict_get (lit "description")
    (fields_of (create_issue_payload r project_key issue_type epic_key
                  assignee_account_id))
  = Some (to_adf_doc (Some (strip (cell r (lit "Description"))))) /\
  length (paragraphs (to_adf_doc (Some (strip (cell r (lit "Description"))))))
  = count_linebreaks (strip (cell r (lit "Description"))) + 1.
Proof.
  split; [| apply stripped_line_count].
  unfold create_issue_payload.
  rewrite payload_entry by lit_neq.
  unfold FIELD_MAP; cbn [fold_left].
  rewrite map_field_description.
  change (str_eqb (lit "description") (lit "description")) with true.
  reflexivity.
Qed.

(** The entries of the payload, in order: project and issue type, the
    summary unless blank, labels, description, then the assignee and the
    parent when an identifier is given; there is no other entry, and the
    project and issue type are the ones passed in. *)
Theorem payload_keys (r : row) (project_key issue_type : str)
    (epic_key assignee_account_id : option str) :
  dict_keys (fields_of (create_issue_payload r project_key issue_type epic_key
                          assignee_account_id))
  = [lit "project"; lit "issuetype"]
    ++ (if blank (cell r (lit "Summary")) then [] else [lit "summary"])
    ++ [lit "labels"; lit "description"]
    ++ (if truthy_opt assignee_account_id then [lit "assignee"] else [])
    ++ (if truthy_opt epic_key then [lit "parent"] else []) /\
  dict_get (lit "project")
    (fields_of (create_issue_payload r project_key issue_type epic_key
                  assignee_account_id))
  = Some (VDict [(lit "key", VStr project_key)]) /\
  dict_get (lit "issuetype")
    (fields_of (create_issue_payload r project_key issue_type epic_key
                  assignee_account_id))
  = Some (VDict [(lit "name", VStr issue_type)]).
Proof.
  unfold create_issue_payload, create_issue_payload_with, FIELD_MAP.
  cbn [fold_left]. unfold map_field.
  change (mem_str (lit "labels") [lit "summary"]) with false.
  change (mem_str (lit "description") [lit "summary"]) with false.
  change (mem_str (lit "summary") [lit "summary"]) with true.
  rewrite !andb_false_r, andb_true_r, truthy_strip, negb_involutive.
  generalize (parse_labels (Some (strip (cell r (lit "Labels"))))).
  generalize (to_adf_doc (Some (strip (cell r (lit "Description"))))).
  generalize (strip (cell r (lit "Summary"))).
  intros s d l.
  destruct (blank (cell r (lit "Summary")));
    destruct assignee_account_id as [[|a0 a]|];
    destruct epic_key as [[|k0 k]|];
    repeat split; reflexivity.
Qed.

(** A given assignee identifier always ends up as the "assignee" entry,
    also over a column mapped to "assignee"; with the field map of the
    script there is no such entry without one. *)
Theorem assignee_entry :
  (forall field_map as_list (r : row) project_key issue_type epic_key (a : str),
      truthy a = true ->
      dict_get (lit "assignee")
        (fields_of (create_issue_payload_with field_map as_list r project_key
                      issue_type epic_key (Some a)))
      = Some (VDict [(lit "accountId", VStr a)])) /\
  (forall (r : row) project_key issue_type epic_key assignee_account_id,
      truthy_opt assignee_account_id = false ->
      dict_get (lit "assignee")
        (fields_of (create_issue_payload r project_key issue_type epic_key
                      assignee_account_id))
      = None).
Proof.
  split.
  - intros fm as_list r pk it ek a Ha.
    unfold create_issue_payload_with, fields_of. rewrite Ha.
    cbn [dict_get]. change (str_eqb (lit "fields") (lit "fields")) with true.
    cbv iota.
    destruct ek as [k|]; [destruct (truthy k) |];
      rewrite ?dict_get_set_neq by lit_neq; apply dict_get_set_eq.
  - intros r pk it ek aa Haa.
    unfold create_issue_payload, create_issue_payload_with, FIELD_MAP.
    cbn [fold_left]. unfold map_field.
    change (mem_str (lit "labels") [lit "summary"]) with false.
    change (mem_str (lit "description") [lit "summary"]) with false.
    rewrite !andb_false_r.
    generalize (parse_labels (Some (strip (cell r (lit "Labels"))))).
    generalize (to_adf_doc (Some (strip (cell r (lit "Description"))))).
    intros d l.
    destruct (negb (truthy (strip (cell r (lit "Summary"))))
              && mem_str (lit "summary") [lit "summary"]);
      destruct aa as [[|a0 a]|]; try discriminate Haa;
      destruct ek as [[|k0 k]|]; reflexivity.
Qed.

Lemma assignee_entry_witness :
  truthy (lit "5b10ac8d") = true /\
  dict_get (lit "assignee")
    (fields_of (create_issue_payload_with
                  [(lit "Owner", lit "assignee")] [] [(lit "Owner", Some (lit "me"))]
                  (lit "PROJ") (lit "Task") None (Some (lit "5b10ac8d"))))
  = Some (VDict [(lit "accountId", VStr (lit "5b10ac8d"))]).
Proof.
  split; [reflexivity |].
  apply (proj1 assignee_entry). reflexivity.
Defined.

(** A given epic key always ends up as the "parent" entry, also over a
    column mapped to "parent"; with the field map of the script there is
    no such entry without one. *)
Theorem parent_entry :
  (forall field_map as_list (r : row) project_key issue_type (k : str)
          assignee_account_id,
      truthy k = true ->
      dict_get (lit "parent")
        (fields_of (create_issue_payload_with field_map as_list r project_key
                      issue_type (Some k) assignee_account_id))
      = Some (VDict [(lit "key", VStr k)])) /\
  (forall (r : row) project_key issue_type epic_key assignee_account_id,
      truthy_opt epic_key = false ->
      dict_get (lit "parent")
        (fields_of (create_issue_payload r project_key issue_type epic_key
                      assignee_account_id))
      = None).
Proof.
  split.
  - intros fm as_list r pk it k aa Hk.
    unfold create_issue_payload_with, fields_of. rewrite Hk.
    cbn [dict_get]. change (str_eqb (lit "fields") (lit "fields")) with true.
    cbv iota. apply dict_get_set_eq.
  - intros r pk it ek aa Hek.
    unfold create_issue_payload, create_issue_payload_with, FIELD_MAP.
    cbn [fold_left]. unfold map_field.
    change (mem_str (lit "labels") [lit "summary"]) with false.
    change (mem_str (lit "description") [lit "summary"]) with false.
    rewrite !andb_false_r.
    generalize (parse_labels (Some (strip (cell r (lit "Labels"))))).
    generalize (to_adf_doc (Some (strip (cell r (lit "Description"))))).
    intros d l.
    destruct (negb (truthy (strip (cell r (lit "Summary"))))
              && mem_str (lit "summary") [lit "summary"]);
      destruct ek as [[|k0 k]|]; try discriminate Hek;
      destruct aa as [[|a0 a]|]; reflexivity.
Qed.

Lemma parent_entry_witness :
  truthy (lit "PROJ-42") = true /\
  dict_get (lit "parent")
    (fields_of (create_issue_payload_with
                  [(lit "Epic", lit "parent")] [] [(lit "Epic", Some (lit "X-1"))]
                  (lit "PROJ") (lit "Task") (Some (lit "PROJ-42")) None))
  = Some (VDict [(lit "key", VStr (lit "PROJ-42"))]).
Proof.
  split; [reflexivity |].
  apply (proj1 parent_entry). reflexivity.
Defined.

(** ** Issue Creator: the request that is sent *)

Section Requests.

Variable W : Type.
Variable http_post : request -> W -> result response * W.

Lemma create_issue_recorded (os : os_env) (r : row) (w : W)
    (log : list request) (out : list line)
    (base_url project_key email token : str) :
  setting os "JIRA_BASE_URL" base_url ->
  setting os "JIRA_PROJECT_KEY" project_key ->
  setting os "JIRA_EMAIL" email ->
  setting os "JIRA_API_TOKEN" token ->
  let st' := snd (create_issue (recording http_post) r os
                    {| world := (w, log); stdout := out |}) in
  snd (world st') = log ++ [issue_request os r base_url project_key email token] /\
  stdout st' = out.
Proof.
  intros Hb Hp He Ht.
  rewrite (create_issue_run _ (recording http_post) os r _ _ _ _ _ Hb Hp He Ht).
  unfold recording. cbn [world stdout fst snd].
  destruct (http_post _ w) as [[resp|x] w']; split; reflexivity.
Qed.

(** With its settings present, [create_issue] sends exactly one request,
    whatever the answer, and prints nothing: a POST to the issue URL with
    the JSON headers, the e-mail and token as credentials, a timeout of
    60 and the payload of the row as body. *)
Theorem create_issue_sends_one_request (os : os_env) (r : row) (w : W)
    (log : list request) (out : list line)
    (base_url project_key email token : str) :
  setting os "JIRA_BASE_URL" base_url ->
  setting os "JIRA_PROJECT_KEY" project_key ->
  setting os "JIRA_EMAIL" email ->
  setting os "JIRA_API_TOKEN" token ->
  exists req,
    snd (world (snd (create_issue (recording http_post) r os
                       {| world := (w, log); stdout := out |})))
    = log ++ [req] /\
    stdout (snd (create_issue (recording http_post) r os
                   {| world := (w, log); stdout := out |}))
    = out /\
    url req = rstrip (lit "/") base_url ++ lit "/rest/api/3/issue" /\
    headers req = [ (lit "Accept", lit "application/json");
                    (lit "Content-Type", lit "application/json") ] /\
    auth req = (email, token) /\
    timeout req = 60%Z /\
    json req
    = create_issue_payload r project_key
        (match dict_get (lit "JIRA_ISSUE_TYPE") (environ os) with
         | Some t => t
         | None => lit "Task"
         end)
        (dict_get (lit "EPIC_KEY") (environ os))
        (dict_get (lit "ASSIGNEE_ACCOUNT_ID") (environ os)).
Proof.
  intros Hb Hp He Ht.
  destruct (create_issue_recorded os r w log out _ _ _ _ Hb Hp He Ht) as [Hlog Hout].
  exists (issue_request os r base_url project_key email token).
  split; [exact Hlog |]. split; [exact Hout |].
  repeat split.
Qed.

(** The issue type sent is the value of JIRA_ISSUE_TYPE whenever the
    variable is set, the empty string included, and "Task" only when it
    is not set. *)
Theorem issue_type_sent (os : os_env) (r : row) (w : W)
    (log : list request) (out : list line)
    (base_url project_key email token : str) :
  setting os "JIRA_BASE_URL" base_url ->
  setting os "JIRA_PROJECT_KEY" project_key ->
  setting os "JIRA_EMAIL" email ->
  setting os "JIRA_API_TOKEN" token ->
  exists req,
    snd (world (snd (create_issue (recording http_post) r os
                       {| world := (w, log); stdout := out |})))
    = log ++ [req] /\
    (forall t, dict_get (lit "JIRA_ISSUE_TYPE") (environ os) = Some t ->
               dict_get (lit "issuetype") (fields_of (json req))
               = Some (VDict [(lit "name", VStr t)])) /\
    (dict_get (lit "JIRA_ISSUE_TYPE") (environ os) = None ->
     dict_get (lit "issuetype") (fields_of (json req))
     = Some (VDict [(lit "name", VStr (lit "Task"))])).
Proof.
  intros Hb Hp He Ht.
  destruct (create_issue_recorded os r w log out _ _ _ _ Hb Hp He Ht) as [Hlog _].
  exists (issue_request os r base_url project_key email token).
  split; [exact Hlog |].
  assert (E : forall it ek aa,
             dict_get (lit "issuetype")
               (fields_of (create_issue_payload r project_key it ek aa))
             = Some (VDict [(lit "name", VStr it)])).
  { intros it ek aa. unfold create_issue_payload.
    rewrite payload_entry by lit_neq.
    rewrite (fold_other CUSTOM_FIELD_AS_LIST r (lit "issuetype") []
               ltac:(lit_neq) ltac:(lit_neq) ltac:(lit_neq) FIELD_MAP).
    - reflexivity.
    - intros c [H|[H|[H|[]]]]; vm_compute in H; inversion H. }
  unfold issue_request; cbn [json].
  split.
  - intros t Hset. now rewrite Hset, E.
  - intros Hunset. now rewrite Hunset, E.
Qed.

(** The epic key and the assignee identifier of the environment, when
    set and not empty, are sent as the "parent" and "assignee" entries;
    when unset or empty no such entry is sent. *)
Theorem links_sent (os : os_env) (r : row) (w : W)
    (log : list request) (out : list line)
    (base_url project_key email token : str) :
  setting os "JIRA_BASE_URL" base_url ->
  setting os "JIRA_PROJECT_KEY" project_key ->
  setting os "JIRA_EMAIL" email ->
  setting os "JIRA_API_TOKEN" token ->
  exists req,
    snd (world (snd (create_issue (recording http_post) r os
                       {| world := (w, log); stdout := out |})))
    = log ++ [req] /\
    (forall k, setting os "EPIC_KEY" k ->
               dict_get (lit "parent") (fields_of (json req))
               = Some (VDict [(lit "key", VStr k)])) /\
    (absent os "EPIC_KEY" ->
     dict_get (lit "parent") (fields_of (json req)) = None) /\
    (forall a, setting os "ASSIGNEE_ACCOUNT_ID" a ->
               dict_get (lit "assignee") (fields_of (json req))
               = Some (VDict [(lit "accountId", VStr a)])) /\
    (absent os "ASSIGNEE_ACCOUNT_ID" ->
     dict_get (lit "assignee") (fields_of (json req)) = None).
Proof.
  intros Hb Hp He Ht.
  destruct (create_issue_recorded os r w log out _ _ _ _ Hb Hp He Ht) as [Hlog _].
  exists (issue_request os r base_url project_key email token).
  split; [exact Hlog |].
  unfold issue_request; cbn [json].
  generalize (match dict_get (lit "JIRA_ISSUE_TYPE") (environ os) with
              | Some t => t
              | None => lit "Task"
              end).
  intros it. unfold setting, absent.
  generalize (dict_get (lit "EPIC_KEY") (environ os)).
  generalize (dict_get (lit "ASSIGNEE_ACCOUNT_ID") (environ os)).
  intros aa ek.
  assert (Hfold : forall k,
             k = lit "parent" \/ k = lit "assignee" ->
             dict_get k
               (fold_left (map_field CUSTOM_FIELD_AS_LIST r) FIELD_MAP
                  [ (lit "project", VDict [(lit "key", VStr project_key)]);
                    (lit "issuetype", VDict [(lit "name", VStr it)]) ])
             = None).
  { intros k Hk.
    rewrite (fold_other CUSTOM_FIELD_AS_LIST r k []).
    - destruct Hk as [-> | ->]; reflexivity.
    - destruct Hk as [-> | ->]; lit_neq.
    - destruct Hk as [-> | ->]; lit_neq.
    - destruct Hk as [-> | ->]; lit_neq.
    - destruct Hk as [-> | ->];
        intros c [H|[H|[H|[]]]]; vm_compute in H; inversion H. }
  unfold create_issue_payload, create_issue_payload_with, fields_of.
  cbn [dict_get]. change (str_eqb (lit "fields") (lit "fields")) with true.
  cbv iota.
  split; [| split; [| split]].
  - intros k [-> Hk]. rewrite Hk. apply dict_get_set_eq.
  - intros Hk. destruct ek as [k|]; cbn [truthy_opt] in Hk; [rewrite Hk |];
      (destruct aa as [a|]; [destruct (truthy a) |]);
      rewrite ?dict_get_set_neq by lit_neq; apply Hfold; now left.
  - intros a [-> Ha]. rewrite Ha.
    destruct ek as [k|]; [destruct (truthy k) |];
      rewrite ?dict_get_set_neq by lit_neq; apply dict_get_set_eq.
  - intros Ha. destruct aa as [a|]; cbn [truthy_opt] in Ha; [rewrite Ha |];
      (destruct ek as [k|]; [destruct (truthy k) |]);
      rewrite ?dict_get_set_neq by lit_neq; apply Hfold; now right.
Qed.

(** A missing setting stops [create_issue] at the first one missing, in
    the order base URL, project key, e-mail, token: the error names it,
    the state is unchanged, so nothing is sent or printed. *)
Theorem create_issue_first_missing_setting (os : os_env) (r : row)
    (st : state W) :
  (absent os "JIRA_BASE_URL" ->
   create_issue http_post r os st = (Err (missing "JIRA_BASE_URL"), st)) /\
  (forall b,
      setting os "JIRA_BASE_URL" b -> absent os "JIRA_PROJECT_KEY" ->
      create_issue http_post r os st = (Err (missing "JIRA_PROJECT_KEY"), st)) /\
  (forall b p,
      setting os "JIRA_BASE_URL" b -> setting os "JIRA_PROJECT_KEY" p ->
      absent os "JIRA_EMAIL" ->
      create_issue http_post r os st = (Err (missing "JIRA_EMAIL"), st)) /\
  (forall b p e,
      setting os "JIRA_BASE_URL" b -> setting os "JIRA_PROJECT_KEY" p ->
      setting os "JIRA_EMAIL" e -> absent os "JIRA_API_TOKEN" ->
      create_issue http_post r os st = (Err (missing "JIRA_API_TOKEN"), st)).
Proof.
  split; [| split; [| split]].
  - intros Hb. rewrite create_issue_unfold. unfold prepare.
    now rewrite (required_absent _ _ Hb).
  - intros b Hb Hp. rewrite create_issue_unfold. unfold prepare.
    now rewrite (required_present _ _ _ Hb), (required_absent _ _ Hp).
  - intros b p Hb Hp He. rewrite create_issue_unfold. unfold prepare.
    now rewrite (required_present _ _ _ Hb), (required_present _ _ _ Hp),
      (required_absent _ _ He).
  - intros b p e Hb Hp He Ht. rewrite create_issue_unfold. unfold prepare.
    now rewrite (required_present _ _ _ Hb), (required_present _ _ _ Hp),
      (required_present _ _ _ He), (required_absent _ _ Ht).
Qed.

(** When the HTTP call itself raises, [create_issue] raises the same
    exception: the answer is not retried and nothing is printed. *)
Theorem transport_error_propagates (os : os_env) (r : row) (st : state W)
    (base_url project_key email token : str) (x : exn) (w' : W) :
  setting os "JIRA_BASE_URL" base_url ->
  setting os "JIRA_PROJECT_KEY" project_key ->
  setting os "JIRA_EMAIL" email ->
  setting os "JIRA_API_TOKEN" token ->
  http_post (issue_request os r base_url project_key email token) (world st)
  = (Err x, w') ->
  create_issue http_post r os st = (Err x, {| world := w'; stdout := stdout st |}).
Proof.
  intros Hb Hp He Ht Hpost.
  now rewrite (create_issue_run _ http_post os r st _ _ _ _ Hb Hp He Ht), Hpost.
Qed.

End Requests.

(** ** Batch Runner: fatal errors and the requests of a run *)

Section Runs.

Variable W : Type.
Variable http_post : request -> W -> result response * W.

(** [main] returns normally exactly when the file path setting is
    present and the file reads to its end as a table with a header,
    whatever the outcomes of the rows.  When the setting is missing or
    empty, the file does not exist, cannot be opened, or its header cannot
    be read or is empty, [main] raises having printed nothing and sent
    nothing.  When reading a row fails, [main] raises that exception after
    the rows before it were processed and reported, without the summary
    line. *)
Theorem main_fails_iff (os : os_env) (st : state W) :
  (fst (main http_post os st) = Ok tt <->
   exists path table,
     setting os "CSV_PATH" path /\ files os path = Some table /\
     fieldnames table <> []) /\
  (absent os "CSV_PATH" ->
   main http_post os st = (Err (missing "CSV_PATH"), st)) /\
  (forall path,
      setting os "CSV_PATH" path ->
      (disk os path = NoFile ->
       main http_post os st
       = (Err (FileNotFoundError (lit "CSV not found: " ++ path)), st)) /\
      (forall e, disk os path = OpenFails e ->
                 main http_post os st = (Err e, st)) /\
      (forall e, disk os path = HeaderFails e ->
                 main http_post os st = (Err e, st)) /\
      (forall table stop,
          disk os path = Reads table stop -> fieldnames table = [] ->
          main http_post os st
          = (Err (RuntimeError (lit "CSV has no headers.")), st)) /\
      (forall table e,
          disk os path = Reads table (Some e) -> fieldnames table <> [] ->
          main http_post os st
          = (Err e,
             {| world := final_world http_post os (csv_rows table) (world st);
                stdout :=
                  stdout st
                  ++ LHeadersBanner :: List.map LHeader (fieldnames table)
                  ++ reports (outcomes http_post os (csv_rows table) (world st)) |}))).
Proof.
  split; [| split].
  - split.
    + intros Hok.
      destruct (setting_or_absent os "CSV_PATH") as [[path Hp]|Ha].
      2:{ rewrite (main_missing_csv_path W http_post os st Ha) in Hok.
          discriminate Hok. }
      exists path.
      destruct (disk os path) as [|e|e|table stop] eqn:Hd.
      * rewrite (main_missing_file W http_post os st path Hp Hd) in Hok.
        discriminate Hok.
      * rewrite (main_open_fails W http_post os st path e Hp Hd) in Hok.
        discriminate Hok.
      * rewrite (main_header_fails W http_post os st path e Hp Hd) in Hok.
        discriminate Hok.
      * destruct (fieldnames table) as [|h hs] eqn:Hh.
        -- rewrite (main_no_headers W http_post os st path table stop Hp Hd Hh)
             in Hok.
           discriminate Hok.
        -- assert (Hne : fieldnames table <> []) by (rewrite Hh; discriminate).
           rewrite (main_reads W http_post os st path table stop Hp Hd Hne) in Hok.
           destruct stop as [e|]; [discriminate Hok |].
           exists table. unfold files. rewrite Hd.
           split; [exact Hp |]. split; [reflexivity | exact Hne].
    + intros [path [table [Hp [Hf Hh]]]].
      now rewrite (main_run W http_post os st path table Hp Hf Hh).
  - apply main_missing_csv_path.
  - intros path Hp. split; [| split; [| split; [| split]]].
    + apply main_missing_file; assumption.
    + intros e. apply main_open_fails; assumption.
    + intros e. apply main_header_fails; assumption.
    + intros table stop. apply main_no_headers; assumption.
    + intros table e Hd Hh.
      rewrite (main_reads W http_post os st path table (Some e) Hp Hd Hh).
      now rewrite app_nil_r.
Qed.

Lemma final_world_recorded (os : os_env)
    (base_url project_key email token : str) :
  setting os "JIRA_BASE_URL" base_url ->
  setting os "JIRA_PROJECT_KEY" project_key ->
  setting os "JIRA_EMAIL" email ->
  setting os "JIRA_API_TOKEN" token ->
  forall (rows : list row) (w : W) (log : list request),
    snd (final_world (recording http_post) os rows (w, log))
    = log ++ List.map (fun r => issue_request os r base_url project_key email token)
               rows.
Proof.
  intros Hb Hp He Ht.
  induction rows as [|r rows IH]; intros w log; cbn [final_world map].
  - now rewrite app_nil_r.
  - rewrite (create_issue_run _ (recording http_post) os r _ _ _ _ _ Hb Hp He Ht).
    unfold recording at 1. cbn [world stdout fst snd].
    destruct (http_post (issue_request os r base_url project_key email token) w)
      as [[resp|x] w']; cbn [respond world];
      rewrite IH, <- app_assoc; reflexivity.
Qed.

(** With the settings present, a run sends one request per row, in the
    order of the rows, each with the payload of its row, whatever the
    answers: a failed row is neither retried nor does it stop the rows
    after it. *)
Theorem main_sends_one_request_per_row (os : os_env)
    (st : state (W * list request)) (path : str) (table : csv_table)
    (base_url project_key email token : str) :
  setting os "CSV_PATH" path ->
  files os path = Some table ->
  fieldnames table <> [] ->
  setting os "JIRA_BASE_URL" base_url ->
  setting os "JIRA_PROJECT_KEY" project_key ->
  setting os "JIRA_EMAIL" email ->
  setting os "JIRA_API_TOKEN" token ->
  exists reqs,
    snd (world (snd (main (recording http_post) os st)))
    = snd (world st) ++ reqs /\
    length reqs = length (csv_rows table) /\
    List.map json reqs
    = List.map (fun r => create_issue_payload r project_key
                           (match dict_get (lit "JIRA_ISSUE_TYPE") (environ os) with
                            | Some t => t
                            | None => lit "Task"
                            end)
                           (dict_get (lit "EPIC_KEY") (environ os))
                           (dict_get (lit "ASSIGNEE_ACCOUNT_ID") (environ os)))
        (csv_rows table) /\
    Forall (fun req => url req = rstrip (lit "/") base_url ++ lit "/rest/api/3/issue")
      reqs.
Proof.
  intros Hc Hf Hh Hb Hp He Ht.
  exists (List.map (fun r => issue_request os r base_url project_key email token)
            (csv_rows table)).
  rewrite (main_run _ (recording http_post) os st path table Hc Hf Hh).
  cbn [snd world]. destruct st as [[w log] out]. cbn [world snd].
  split; [apply (final_world_recorded os _ _ _ _ Hb Hp He Ht) |].
  split; [apply length_map |].
  split.
  - rewrite map_map. reflexivity.
  - apply Forall_forall. intros req Hin. apply in_map_iff in Hin as [r [<- _]].
    reflexivity.
Qed.

(** When a setting of [create_issue] is missing, a run whose file is in
    place sends no request and counts no issue: each row is reported with
    the error that names the missing variable. *)
Theorem main_sends_nothing_without_settings (os : os_env) (st : state W)
    (path : str) (table : csv_table) :
  setting os "CSV_PATH" path ->
  files os path = Some table ->
  fieldnames table <> [] ->
  absent os "JIRA_BASE_URL" \/ absent os "JIRA_PROJECT_KEY" \/
  absent os "JIRA_EMAIL" \/ absent os "JIRA_API_TOKEN" ->
  exists key, absent os key /\
    world (snd (main http_post os st)) = world st /\
    stdout (snd (main http_post os st))
    = stdout st
      ++ LHeadersBanner :: List.map LHeader (fieldnames table)
      ++ List.map (fun k => LError k (missing key))
           (seq 1 (length (csv_rows table)))
      ++ [LDone 0].
Proof.
  intros Hc Hf Hh Habs.
  destruct (main_missing_setting W http_post os st path table Hc Hf Hh Habs)
    as [key [Hk E]].
  exists key. rewrite E. repeat split; assumption.
Qed.

End Runs.

(** ** Base URL: what is stripped *)

(** The base URL used is the configured value without a run of slashes
    at its end; nothing else is removed.  A value made of slashes only
    passes as a setting and gives the bare path as URL. *)
Theorem base_url_is_prefix :
  (forall v : str, exists n : nat,
      v = rstrip (lit "/") v ++ repeat SLASH n) /\
  (forall n : nat, issue_url (repeat SLASH n) = lit "/rest/api/3/issue").
Proof.
  split.
  - intros v. unfold rstrip, rstrip_by.
    destruct (dropwhile_decomp (fun c => existsb (N.eqb c) (lit "/")) (rev v))
      as [a [Ha Hp]].
    exists (length a).
    remember (dropwhile (fun c => existsb (N.eqb c) (lit "/")) (rev v)) as d.
    assert (E : v = rev (a ++ d)) by (rewrite <- Ha; symmetry; apply rev_involutive).
    rewrite E at 1. rewrite rev_app_distr. f_equal.
    rewrite (all_slashes a Hp) at 1. apply rev_repeat.
  - intros n. unfold issue_url.
    change (repeat SLASH n) with ([] ++ repeat SLASH n).
    rewrite (rstrip_slashes [] n). reflexivity.
Qed.

(** ** Runs of the example, observed *)

Lemma example_settings :
  setting example_os "CSV_PATH" (lit "issues.csv") /\
  setting example_os "JIRA_BASE_URL" (lit "https://example.atlassian.net/") /\
  setting example_os "JIRA_PROJECT_KEY" (lit "PROJ") /\
  setting example_os "JIRA_EMAIL" (lit "me@example.com") /\
  setting example_os "JIRA_API_TOKEN" (lit "secret").
Proof. repeat split. Defined.

Lemma parse_labels_empty_iff_witness :
  blank_or_comma (lit " , ,, ") = true /\
  parse_labels (Some (lit " , ,, ")) = [].
Proof.
  split; [reflexivity |].
  apply (proj2 (parse_labels_empty_iff (lit " , ,, "))). reflexivity.
Defined.

Lemma create_issue_sends_one_request_witness :
  setting example_os "JIRA_BASE_URL" (lit "https://example.atlassian.net/") /\
  setting example_os "JIRA_PROJECT_KEY" (lit "PROJ") /\
  setting example_os "JIRA_EMAIL" (lit "me@example.com") /\
  setting example_os "JIRA_API_TOKEN" (lit "secret") /\
  exists req,
    snd (world (snd (create_issue (recording scripted) first_row example_os
                       {| world := ([Ok resp_400], []); stdout := [] |})))
    = [] ++ [req] /\
    url req = lit "https://example.atlassian.net/rest/api/3/issue" /\
    auth req = (lit "me@example.com", lit "secret").
Proof.
  destruct example_settings as [_ [Hb [Hp [He Ht]]]].
  split; [exact Hb |]. split; [exact Hp |]. split; [exact He |].
  split; [exact Ht |].
  destruct (create_issue_sends_one_request _ scripted example_os first_row
              [Ok resp_400] [] [] _ _ _ _ Hb Hp He Ht)
    as [req [Hlog [_ [Hurl [_ [Hauth _]]]]]].
  exists req. split; [exact Hlog |]. split; [exact Hurl | exact Hauth].
Defined.

Lemma issue_type_sent_witness :
  setting (all_settings_os (Some [])) "JIRA_BASE_URL"
    (lit "https://example.atlassian.net/") /\
  setting (all_settings_os (Some [])) "JIRA_PROJECT_KEY" (lit "PROJ") /\
  setting (all_settings_os (Some [])) "JIRA_EMAIL" (lit "me@example.com") /\
  setting (all_settings_os (Some [])) "JIRA_API_TOKEN" (lit "secret") /\
  dict_get (lit "JIRA_ISSUE_TYPE") (environ (all_settings_os (Some []))) = Some [] /\
  exists req,
    snd (world (snd (create_issue (recording scripted) first_row
                       (all_settings_os (Some []))
                       {| world := ([Ok resp_201], []); stdout := [] |})))
    = [] ++ [req] /\
    dict_get (lit "issuetype") (fields_of (json req))
    = Some (VDict [(lit "name", VStr [])]).
Proof.
  assert (Hb : setting (all_settings_os (Some [])) "JIRA_BASE_URL"
                 (lit "https://example.atlassian.net/")) by (split; reflexivity).
  assert (Hp : setting (all_settings_os (Some [])) "JIRA_PROJECT_KEY" (lit "PROJ"))
    by (split; reflexivity).
  assert (He : setting (all_settings_os (Some [])) "JIRA_EMAIL" (lit "me@example.com"))
    by (split; reflexivity).
  assert (Ht : setting (all_settings_os (Some [])) "JIRA_API_TOKEN" (lit "secret"))
    by (split; reflexivity).
  split; [exact Hb |]. split; [exact Hp |]. split; [exact He |].
  split; [exact Ht |]. split; [reflexivity |].
  destruct (issue_type_sent _ scripted (all_settings_os (Some [])) first_row
              [Ok resp_201] [] [] _ _ _ _ Hb Hp He Ht)
    as [req [Hlog [Hset _]]].
  exists req. split; [exact Hlog |]. apply Hset. reflexivity.
Defined.

Lemma links_sent_witness :
  setting example_os "JIRA_BASE_URL" (lit "https://example.atlassian.net/") /\
  setting example_os "JIRA_PROJECT_KEY" (lit "PROJ") /\
  setting example_os "JIRA_EMAIL" (lit "me@example.com") /\
  setting example_os "JIRA_API_TOKEN" (lit "secret") /\
  absent example_os "EPIC_KEY" /\
  exists req,
    snd (world (snd (create_issue (recording scripted) first_row example_os
                       {| world := ([Ok resp_201], []); stdout := [] |})))
    = [] ++ [req] /\
    dict_get (lit "parent") (fields_of (json req)) = None.
Proof.
  destruct example_settings as [_ [Hb [Hp [He Ht]]]].
  split; [exact Hb |]. split; [exact Hp |]. split; [exact He |].
  split; [exact Ht |]. split; [reflexivity |].
  destruct (links_sent _ scripted example_os first_row
              [Ok resp_201] [] [] _ _ _ _ Hb Hp He Ht)
    as [req [Hlog [_ [Hnone _]]]].
  exists req. split; [exact Hlog |]. apply Hnone. reflexivity.
Defined.

Lemma create_issue_first_missing_setting_witness :
  absent no_base_url_os "JIRA_BASE_URL" /\
  create_issue scripted first_row no_base_url_os (start [Ok resp_201])
  = (Err (missing "JIRA_BASE_URL"), start [Ok resp_201]).
Proof.
  split; [reflexivity |].
  apply (proj1 (create_issue_first_missing_setting _ scripted no_base_url_os
                  first_row (start [Ok resp_201]))).
  reflexivity.
Defined.

Lemma transport_error_propagates_witness :
  setting example_os "JIRA_BASE_URL" (lit "https://example.atlassian.net/") /\
  setting example_os "JIRA_PROJECT_KEY" (lit "PROJ") /\
  setting example_os "JIRA_EMAIL" (lit "me@example.com") /\
  setting example_os "JIRA_API_TOKEN" (lit "secret") /\
  scripted (issue_request example_os first_row
              (lit "https://example.atlassian.net/") (lit "PROJ")
              (lit "me@example.com") (lit "secret"))
    (world (start [Err (RequestException (lit "timed out"))]))
  = (Err (RequestException (lit "timed out")), []) /\
  create_issue scripted first_row example_os
    (start [Err (RequestException (lit "timed out"))])
  = (Err (RequestException (lit "timed out")), {| world := []; stdout := [] |}).
Proof.
  destruct example_settings as [_ [Hb [Hp [He Ht]]]].
  split; [exact Hb |]. split; [exact Hp |]. split; [exact He |].
  split; [exact Ht |]. split; [reflexivity |].
  apply (transport_error_propagates _ scripted example_os first_row
           (start [Err (RequestException (lit "timed out"))])
           _ _ _ _ _ [] Hb Hp He Ht).
  reflexivity.
Defined.

Lemma main_fails_iff_witness :
  setting (broken_os "issues.csv") "CSV_PATH" (lit "issues.csv") /\
  disk (broken_os "issues.csv") (lit "issues.csv")
  = Reads {| fieldnames := fieldnames example_table;
             csv_rows := [hd [] example_rows] |}
      (Some (CsvError (lit "line contains NUL"))) /\
  main scripted (broken_os "issues.csv") (start [Ok resp_201; Ok resp_201])
  = (Err (CsvError (lit "line contains NUL")),
     {| world := [Ok resp_201];
        stdout := [ LHeadersBanner;
                    LHeader (lit "Summary"); LHeader (lit "Labels");
                    LHeader (lit "Description");
                    LCreated 1 (VStr (lit "PROJ-1")) ] |}).
Proof.
  assert (Hp : setting (broken_os "issues.csv") "CSV_PATH" (lit "issues.csv"))
    by (split; reflexivity).
  split; [exact Hp |]. split; [reflexivity |].
  destruct (proj2 (proj2 (main_fails_iff _ scripted (broken_os "issues.csv")
                            (start [Ok resp_201; Ok resp_201])))
              (lit "issues.csv") Hp)
    as [_ [_ [_ [_ Hstop]]]].
  rewrite (Hstop _ _ eq_refl ltac:(discriminate)).
  reflexivity.
Defined.

(** A directory as input file and a file that is not UTF-8: [main] raises
    before any line is printed. *)
Example main_on_unreadable_files :
  main scripted (broken_os "folder") (start [Ok resp_201])
  = (Err (OSError (lit "Is a directory")), start [Ok resp_201]) /\
  main scripted (broken_os "latin1.csv") (start [Ok resp_201])
  = (Err (UnicodeDecodeError (lit "invalid start byte")), start [Ok resp_201]) /\
  main scripted (broken_os "nowhere.csv") (start [Ok resp_201])
  = (Err (FileNotFoundError (lit "CSV not found: nowhere.csv")),
     start [Ok resp_201]).
Proof. repeat split. Qed.

Lemma main_sends_one_request_per_row_witness :
  setting example_os "CSV_PATH" (lit "issues.csv") /\
  files example_os (lit "issues.csv") = Some example_table /\
  fieldnames example_table <> [] /\
  setting example_os "JIRA_BASE_URL" (lit "https://example.atlassian.net/") /\
  setting example_os "JIRA_PROJECT_KEY" (lit "PROJ") /\
  setting example_os "JIRA_EMAIL" (lit "me@example.com") /\
  setting example_os "JIRA_API_TOKEN" (lit "secret") /\
  exists reqs,
    snd (world (snd (main (recording scripted) example_os
                       {| world := ([Ok resp_400; Ok resp_201], []);
                          stdout := [] |})))
    = [] ++ reqs /\
    length reqs = 2.
Proof.
  destruct example_settings as [Hc [Hb [Hp [He Ht]]]].
  assert (Hh : fieldnames example_table <> []) by discriminate.
  split; [exact Hc |]. split; [reflexivity |]. split; [exact Hh |].
  split; [exact Hb |]. split; [exact Hp |]. split; [exact He |].
  split; [exact Ht |].
  destruct (main_sends_one_request_per_row _ scripted example_os
              {| world := ([Ok resp_400; Ok resp_201], []); stdout := [] |}
              (lit "issues.csv") example_table _ _ _ _
              Hc eq_refl Hh Hb Hp He Ht)
    as [reqs [Hlog [Hlen _]]].
  exists reqs. split; [exact Hlog | exact Hlen].
Defined.

Lemma main_sends_nothing_without_settings_witness :
  setting no_base_url_os "CSV_PATH" (lit "issues.csv") /\
  files no_base_url_os (lit "issues.csv") = Some example_table /\
  fieldnames example_table <> [] /\
  (absent no_base_url_os "JIRA_BASE_URL" \/ absent no_base_url_os "JIRA_PROJECT_KEY" \/
   absent no_base_url_os "JIRA_EMAIL" \/ absent no_base_url_os "JIRA_API_TOKEN") /\
  exists key, absent no_base_url_os key /\
    world (snd (main scripted no_base_url_os (start [Ok resp_201])))
    = world (start [Ok resp_201]).
Proof.
  assert (Hc : setting no_base_url_os "CSV_PATH" (lit "issues.csv"))
    by (split; reflexivity).
  assert (Hh : fieldnames example_table <> []) by discriminate.
  assert (Ha : absent no_base_url_os "JIRA_BASE_URL" \/
               absent no_base_url_os "JIRA_PROJECT_KEY" \/
               absent no_base_url_os "JIRA_EMAIL" \/
               absent no_base_url_os "JIRA_API_TOKEN") by (left; reflexivity).
  split; [exact Hc |]. split; [reflexivity |]. split; [exact Hh |].
  split; [exact Ha |].
  destruct (main_sends_nothing_without_settings _ scripted no_base_url_os
              (start [Ok resp_201]) (lit "issues.csv") example_table
              Hc eq_refl Hh Ha)
    as [key [Hk [Hw _]]].
  exists key. split; [exact Hk | exact Hw].
Defined.

(** ** Field Mapper: other field maps *)

Lemma summary_entry_any_map_witness :
  In (lit "Summary", lit "summary") custom_map /\
  (forall c, In (c, lit "summary") custom_map -> c = lit "Summary") /\
  dict_get (lit "summary")
    (fields_of (create_issue_payload_with custom_map custom_as_list custom_row
                  (lit "PROJ") (lit "Task") None None))
  = Some (VStr (lit "Fix bug")).
Proof.
  assert (Hu : forall c, In (c, lit "summary") custom_map -> c = lit "Summary").
  { intros c [E|[E|[E|[E|[]]]]]; vm_compute in E; now inversion E. }
  assert (Hin : In (lit "Summary", lit "summary") custom_map)
    by (left; reflexivity).
  split; [exact Hin |]. split; [exact Hu |].
  rewrite (summary_entry_any_map custom_map custom_as_list custom_row
             (lit "Summary") (lit "PROJ") (lit "Task") None None Hin Hu).
  reflexivity.
Defined.

(** An entry written by every step that targets it, after the whole
    loop, when one column at most is mapped to it. *)
Lemma fold_unique as_list (r : row) (k col : str) (g : str -> pyobj) :
  (forall fields c f,
      dict_get k (map_field as_list r fields (c, f))
      = if str_eqb f k then Some (g c) else dict_get k fields) ->
  forall fm fields,
    (forall c, In (c, k) fm -> c = col) ->
    dict_get k (fold_left (map_field as_list r) fm fields)
    = if existsb (fun cf => str_eqb (snd cf) k) fm
      then Some (g col)
      else dict_get k fields.
Proof.
  intros Hstep.
  induction fm as [|[c f] fm IH]; intros fields Hu;
    cbn [fold_left existsb snd]; [reflexivity |].
  rewrite IH by (intros c' Hc'; apply Hu; now right).
  rewrite Hstep.
  destruct (str_eqb_spec f k) as [->|Hne]; cbn [orb].
  - rewrite (Hu c (or_introl eq_refl)). now destruct (existsb _ fm).
  - reflexivity.
Qed.

(** For any field map in which [col] is the one column mapped to
    "labels", the "labels" entry is the list of the labels of the trimmed
    cell of [col]; for any field map in which [col] is the one column
    mapped to "description", the "description" entry is the document of
    the trimmed cell of [col]. *)
Theorem labels_and_description_any_map field_map as_list (r : row) (col : str)
    (project_key issue_type : str) (epic_key assignee_account_id : option str) :
  (In (col, lit "labels") field_map ->
   (forall c, In (c, lit "labels") field_map -> c = col) ->
   dict_get (lit "labels")
     (fields_of (create_issue_payload_with field_map as_list r project_key
                   issue_type epic_key assignee_account_id))
   = Some (VList (List.map VStr (parse_labels (Some (strip (cell r col))))))) /\
  (In (col, lit "description") field_map ->
   (forall c, In (c, lit "description") field_map -> c = col) ->
   dict_get (lit "description")
     (fields_of (create_issue_payload_with field_map as_list r project_key
                   issue_type epic_key assignee_account_id))
   = Some (to_adf_doc (Some (strip (cell r col))))).
Proof.
  split; intros Hin Hu; rewrite payload_entry by lit_neq.
  - rewrite (fold_unique as_list r (lit "labels") col
               (fun c => VList (List.map VStr (parse_labels (Some (strip (cell r c))))))
               (fun fields c f => map_field_labels as_list r fields c f)
               field_map _ Hu).
    assert (Hex : existsb (fun cf => str_eqb (snd cf) (lit "labels")) field_map = true).
    { apply existsb_exists. exists (col, lit "labels"); split; auto. }
    now rewrite Hex.
  - rewrite (fold_unique as_list r (lit "description") col
               (fun c => to_adf_doc (Some (strip (cell r c))))
               (fun fields c f => map_field_description as_list r fields c f)
               field_map _ Hu).
    assert (Hex : existsb (fun cf => str_eqb (snd cf) (lit "description")) field_map
                  = true).
    { apply existsb_exists. exists (col, lit "description"); split; auto. }
    now rewrite Hex.
Qed.

Lemma labels_and_description_any_map_witness :
  In (lit "Tags", lit "labels") [(lit "Tags", lit "labels")] /\
  (forall c, In (c, lit "labels") [(lit "Tags", lit "labels")] -> c = lit "Tags") /\
  dict_get (lit "labels")
    (fields_of (create_issue_payload_with [(lit "Tags", lit "labels")] []
                  [(lit "Tags", Some (lit "x ,y"))]
                  (lit "PROJ") (lit "Task") None None))
  = Some (VList [VStr (lit "x"); VStr (lit "y")]).
Proof.
  assert (Hu : forall c, In (c, lit "labels") [(lit "Tags", lit "labels")] ->
                         c = lit "Tags").
  { intros c [E|[]]; now inversion E. }
  assert (Hin : In (lit "Tags", lit "labels") [(lit "Tags", lit "labels")])
    by (left; reflexivity).
  split; [exact Hin |]. split; [exact Hu |].
  rewrite (proj1 (labels_and_description_any_map [(lit "Tags", lit "labels")] []
                    [(lit "Tags", Some (lit "x ,y"))] (lit "Tags")
                    (lit "PROJ") (lit "Task") None None) Hin Hu).
  reflexivity.
Defined.
